(** * TestGPT: a shallow embedding of [src/utils.ts]

    The development follows the source file top to bottom: JavaScript
    strings and values, the effect monad in which the I/O helpers run,
    the helpers themselves ([readFile], [writeToFile], [toList],
    [getPrompt], [getExampleMessages], [getCompletionRequest],
    [getTestContent], [streamTestContent], [autoTest]), and finally the
    properties of the specification. *)

From Stdlib Require Import List NArith ZArith QArith Bool Lia Arith.
From Stdlib Require Import Ascii String DecimalString.
Import ListNotations.
Close Scope Q_scope.
Open Scope nat_scope.
Open Scope list_scope.

Set Implicit Arguments.

(** ** JavaScript strings

    A JavaScript string is a finite sequence of UTF-16 code units.  The
    code only ever inspects code units (splitting at [\n], prefixes,
    white space, line terminators), so a string is a list of code units
    and the string operators are list operators. *)

Definition jsstring := list N.

(** A source literal, written as a Rocq string of ASCII characters. *)
Definition lit (s : string) : jsstring :=
  map N_of_ascii (list_ascii_of_string s).

Definition LF : N := 10%N.
Definition CR : N := 13%N.
Definition BACKTICK : N := 96%N.

Fixpoint eqb_str (a b : jsstring) : bool :=
  match a, b with
  | [], [] => true
  | x :: a', y :: b' => (x =? y)%N && eqb_str a' b'
  | _, _ => false
  end.

(** [s.startsWith(p)] *)
Fixpoint startsWith (s p : jsstring) {struct p} : bool :=
  match p with
  | [] => true
  | x :: p' =>
      match s with
      | [] => false
      | y :: s' => (x =? y)%N && startsWith s' p'
      end
  end.

(** [s.split(sep)] for a separator of one code unit: the result is never
    empty, and the empty string splits into one empty string. *)
Fixpoint split_at (is_sep : N -> bool) (s : jsstring) : list jsstring :=
  match s with
  | [] => [[]]
  | c :: s' =>
      if is_sep c then [] :: split_at is_sep s'
      else match split_at is_sep s' with
           | l :: ls => (c :: l) :: ls
           | [] => [[c]]
           end
  end.

Definition split (sep : N) (s : jsstring) : list jsstring :=
  split_at (fun c => (c =? sep)%N) s.

(** [arr.join(sep)] *)
Fixpoint join (sep : jsstring) (arr : list jsstring) : jsstring :=
  match arr with
  | [] => []
  | [x] => x
  | x :: rest => x ++ sep ++ join sep rest
  end.

(** ECMAScript LineTerminator code units: LF, CR, LS, PS.  These are what
    [^], [$] and [.] of a regular expression look at. *)
Definition is_line_terminator (c : N) : bool :=
  ((c =? 10) || (c =? 13) || (c =? 8232) || (c =? 8233))%N.

(** What [String.prototype.trim] removes: WhiteSpace (TAB, VT, FF, the
    byte order mark and the space separators) and LineTerminator. *)
Definition is_white_space (c : N) : bool :=
  ((c =? 9) || (c =? 11) || (c =? 12) || (c =? 32) || (c =? 160)
   || (c =? 5760) || ((8192 <=? c) && (c <=? 8202))
   || (c =? 8239) || (c =? 8287) || (c =? 12288) || (c =? 65279))%N
  || is_line_terminator c.

Fixpoint trimStart (s : jsstring) : jsstring :=
  match s with
  | [] => []
  | c :: s' => if is_white_space c then trimStart s' else s
  end.

Definition trimEnd (s : jsstring) : jsstring := rev (trimStart (rev s)).

Definition trim (s : jsstring) : jsstring := trimEnd (trimStart s).

(** Number-to-string conversion of a non-negative integer, as a template
    literal does it for [index + 1]. *)
Definition number_toString (n : nat) : jsstring :=
  lit (NilZero.string_of_uint (Nat.to_uint n)).

(** ** JavaScript values

    What [JSON.parse] can return, plus [undefined].  An object is its list
    of own properties (keys distinct, as in any JavaScript object). *)

#[local] Unset Elimination Schemes.
Inductive jsval : Type :=
| JUndefined
| JNull
| JBool (b : bool)
| JNum (q : Q)
| JStr (s : jsstring)
| JArr (items : list jsval)
| JObj (props : list (jsstring * jsval)).
#[local] Set Elimination Schemes.

(** ToBoolean, as used by [if (token)]. *)
Definition truthy (v : jsval) : bool :=
  match v with
  | JUndefined | JNull => false
  | JBool b => b
  | JNum q => negb (Qnum q =? 0)%Z
  | JStr s => match s with [] => false | _ => true end
  | JArr _ | JObj _ => true
  end.

Fixpoint lookup (key : jsstring) (props : list (jsstring * jsval)) : jsval :=
  match props with
  | [] => JUndefined
  | (k, v) :: rest => if eqb_str k key then v else lookup key rest
  end.

(** [v.key] for one of the property names the code reads ([choices],
    [delta], [content], [message]): none of them is defined on a
    prototype, so only an object's own properties answer; reading a
    property of [undefined] or [null] throws a TypeError ([None]). *)
Definition get_prop (v : jsval) (key : jsstring) : option jsval :=
  match v with
  | JUndefined | JNull => None
  | JObj props => Some (lookup key props)
  | _ => Some JUndefined
  end.

(** [v[0]] *)
Definition get_first (v : jsval) : option jsval :=
  match v with
  | JUndefined | JNull => None
  | JArr items => Some (nth 0 items JUndefined)
  | JStr s => Some (match s with [] => JUndefined | c :: _ => JStr [c] end)
  | JObj props => Some (lookup (lit "0") props)
  | _ => Some JUndefined
  end.

(** ** Types of [./types] *)

(** Modelled from the spec: [types.ts] is not among the sources.  The
    roles are the three members of [ERole] that the code names. *)
Inductive ERole := System | User | Assistant.

(** Modelled from the spec: a chat message is a role and a content. *)
Record IMessage := { role : ERole; msg_content : jsstring }.

(** Modelled from the spec: an example pair is a file name, the source
    code and the expected test code. *)
Record IExample := { ex_fileName : jsstring; code : jsstring; tests : jsstring }.

(** Modelled from the spec: the prompt arguments are the content, the
    file name, and the optional lists of technologies and tips, as
    [getPrompt] destructures them. *)
Record iGetPromptArgs := {
  content : jsstring;
  fileName : jsstring;
  techs : option (list jsstring);
  tips : option (list jsstring)
}.

(** ** Requests *)

Inductive IModel := gpt_3_5_turbo | gpt_3_5_turbo_0301 | gpt_4.

(** The fields of the client library's request type that the code sets. *)
Record ICompletionRequest := {
  model : IModel;
  messages : list IMessage
}.

(** ** Prompt construction *)

(** [arr.map(f)] where [f] also receives the index. *)
Fixpoint map_index {A B} (f : A -> nat -> B) (from : nat) (arr : list A) : list B :=
  match arr with
  | [] => []
  | x :: rest => f x from :: map_index f (S from) rest
  end.

Definition toList (arr : list jsstring) : jsstring :=
  join [CR; LF]
       (map_index (fun tip index => number_toString (index + 1) ++ lit ". " ++ tip) 0 arr).

(** [if (xs?.length)]: the list is present and not empty. *)
Definition has_length {A} (xs : option (list A)) : option (list A) :=
  match xs with
  | Some (_ :: _) => xs
  | _ => None
  end.

Definition FENCE : jsstring := lit "```".

Definition ANSWER_ONLY : jsstring :=
  lit "Your answer should be only the code block. Start your response with ``` directly and end it with ``` only, don't add any more text.".

Definition getPrompt (args : iGetPromptArgs) : jsstring :=
  let prompt := lit "I need unit tests for a file called " ++ fileName args in
  let prompt :=
    match has_length (techs args) with
    | Some ts =>
        prompt ++ lit " using the following technologies: " ++ [LF]
               ++ lit "      " ++ toList ts ++ [LF]
               ++ lit "    "
    | None => prompt
    end in
  let prompt :=
    match has_length (tips args) with
    | Some ts =>
        prompt ++ lit "Here are some tips: " ++ [LF]
               ++ lit "      " ++ toList ts ++ [LF]
               ++ lit "    "
    | None => prompt
    end in
  let prompt := prompt ++ ANSWER_ONLY in
  prompt ++ lit "Here is the file content: " ++ [LF]
         ++ lit "    " ++ FENCE ++ [LF]
         ++ lit "    " ++ content args ++ [LF]
         ++ lit "    " ++ FENCE ++ [LF]
         ++ lit "  ".

Definition getExampleMessages (promptArgs : iGetPromptArgs)
           (examples : option (list IExample)) : list IMessage :=
  match examples with
  | None => []
  | Some examples =>
      flat_map
        (fun g =>
           let prompt :=
             getPrompt {| content := code g;
                          fileName := ex_fileName g;
                          techs := techs promptArgs;
                          tips := tips promptArgs |} in
           [ {| role := User; msg_content := prompt |};
             {| role := Assistant; msg_content := tests g |} ])
        examples
  end.

Definition SYSTEM_MESSAGE : IMessage :=
  {| role := System;
     msg_content :=
       lit "You are an assistant that provides unit tests for a given file." |}.

Definition getCompletionRequest (model : IModel) (prompt : jsstring)
           (examples : list IMessage) : ICompletionRequest :=
  {| model := model;
     messages :=
       [SYSTEM_MESSAGE] ++ examples ++ [ {| role := User; msg_content := prompt |} ] |}.

(** ** The fence-stripping regular expression

    [content.replace(regex, empty)] for the regex [^```.*$] with the flags
    [g] and [m].  With these flags [^] matches at the start of the input
    and after every line terminator, [.*] runs to the next line
    terminator (exclusive) and [$] matches there; each match is replaced
    by the empty string.  The scanner below is that replacement: at the
    start of a line it looks for the three backticks, and inside a match
    it drops code units up to the line terminator, which it keeps. *)

Inductive scan := AtLineStart | InLine | InMatch.

Definition after (c : N) : scan :=
  if is_line_terminator c then AtLineStart else InLine.

Fixpoint replace_fence_lines (st : scan) (s : jsstring) : jsstring :=
  match s with
  | [] => []
  | c :: s' =>
      match st with
      | InMatch =>
          if is_line_terminator c then c :: replace_fence_lines AtLineStart s'
          else replace_fence_lines InMatch s'
      | AtLineStart =>
          if startsWith s FENCE then replace_fence_lines InMatch s'
          else c :: replace_fence_lines (after c) s'
      | InLine => c :: replace_fence_lines (after c) s'
      end
  end.

(** ** Effects

    The helpers talk to the console, the file system, the chat-completion
    client and the process.  A computation takes the outside world and the
    trace of what happened so far, and gives an outcome and the extended
    trace.  An exception (or a rejected promise under [await]) is the
    outcome [Throw]; [process.exit] is the outcome [Exit], which no
    [catch] intercepts. *)

Inductive styled :=
| Plain (s : jsstring)
| Blue (s : jsstring)       (* chalk.blue *)
| Green (s : jsstring)      (* chalk.green *)
| Red (s : jsstring).       (* chalk.red *)

Inductive event :=
| ConsoleLog (msg : styled)
| ConsoleError (msg : styled)
| ReadFileSync (path : jsstring)
| WriteFileSync (path : jsstring) (data : jsval) (flag : jsstring)
| CreateChatCompletion (apiKey : jsstring) (req : ICompletionRequest) (stream : bool)
| Token (token : jsval).

(** The body of a chat-completion response: parsed JSON, or for a
    streamed response the chunks of the stream, each already decoded by
    [chunk.toString("utf8")]. *)
Inductive response_data :=
| Data (data : jsval)
| DataStream (chunks : list jsstring).

(** The outside world.  A thrown error is kept as the string that
    [`${err}`] makes of it.  A write may depend on everything that
    happened before it. *)
Record World := {
  fs_readFileSync : jsstring -> jsstring + jsstring;
  fs_writeFileSync : list event -> jsstring -> jsval -> jsstring -> option jsstring;
  JSON_parse : jsstring -> option jsval;
  openai_createChatCompletion :
    jsstring -> ICompletionRequest -> bool -> response_data + jsstring
}.

Inductive outcome (A : Type) :=
| Ok (a : A)
| Throw (err : jsstring)
| Exit (exit_code : Z).
Arguments Throw {A} err.
Arguments Exit {A} exit_code.

Definition M (A : Type) : Type := World -> list event -> outcome A * list event.

Definition ret {A} (a : A) : M A := fun _ tr => (Ok a, tr).

Definition bind {A B} (m : M A) (k : A -> M B) : M B :=
  fun w tr =>
    match m w tr with
    | (Ok a, tr') => k a w tr'
    | (Throw err, tr') => (Throw err, tr')
    | (Exit c, tr') => (Exit c, tr')
    end.

Declare Scope js_scope.
Delimit Scope js_scope with js.
Notation "x <- m ;; k" := (bind m (fun x => k))
  (at level 61, m at next level, right associativity) : js_scope.
Notation "m ;; k" := (bind m (fun _ => k))
  (at level 61, right associativity) : js_scope.
Open Scope js_scope.

Definition throw {A} (err : jsstring) : M A := fun _ tr => (Throw err, tr).

Definition process_exit {A} (c : Z) : M A := fun _ tr => (Exit c, tr).

(** [try { body } catch (err) { handler }] *)
Definition try_catch {A} (body : M A) (handler : jsstring -> M A) : M A :=
  fun w tr =>
    match body w tr with
    | (Throw err, tr') => handler err w tr'
    | r => r
    end.

Definition emit (e : event) : M unit := fun _ tr => (Ok tt, tr ++ [e]).

Definition console_log (msg : styled) : M unit := emit (ConsoleLog msg).
Definition console_error (msg : styled) : M unit := emit (ConsoleError msg).

(** An expression that throws a TypeError where a property of
    [undefined] or [null] is read. *)
Definition TypeError : jsstring := lit "TypeError".
Definition SyntaxError : jsstring := lit "SyntaxError".

Definition eval {A} (e : option A) : M A :=
  match e with
  | Some a => ret a
  | None => throw TypeError
  end.

Definition readFileSync (path : jsstring) : M jsstring :=
  fun w tr =>
    match fs_readFileSync w path with
    | inl fileContent => (Ok fileContent, tr ++ [ReadFileSync path])
    | inr err => (Throw err, tr ++ [ReadFileSync path])
    end.

Definition writeFileSync (path : jsstring) (data : jsval) (flag : jsstring) : M unit :=
  fun w tr =>
    match fs_writeFileSync w tr path data flag with
    | None => (Ok tt, tr ++ [WriteFileSync path data flag])
    | Some err => (Throw err, tr ++ [WriteFileSync path data flag])
    end.

Definition parse (text : jsstring) : M jsval :=
  fun w tr =>
    match JSON_parse w text with
    | Some v => (Ok v, tr)
    | None => (Throw SyntaxError, tr)
    end.

(** ** File helpers *)

Definition readFile (path : jsstring) : M jsstring :=
  try_catch
    (fileContent <- readFileSync path ;;
     ret fileContent)
    (fun err =>
       console_error (Plain (lit "Error reading file: " ++ err)) ;;
       ret []).

Definition writeToFile (path : jsstring) (content : jsval) (append : option bool) : M unit :=
  try_catch
    (writeFileSync path content
       (match append with Some true => lit "a" | _ => lit "w" end) ;;
     console_log (Green (lit "Successfully wrote to file: " ++ path)))
    (fun err =>
       console_error (Plain (lit "Error writing to file: " ++ err))).

(** ** File types and YAML files

    The two helpers below reach the outside through one call each,
    [fs.lstatSync(path).isDirectory()] and the YAML library's [parse];
    each takes the behaviour of its call as an argument: the answer, or
    the error thrown (as the string an error message shows). *)

Inductive EFileType := File | Directory.

Definition lstatSync_isDirectory (fs_lstatSync : jsstring -> bool + jsstring)
           (path : jsstring) : M bool :=
  fun _ tr =>
    match fs_lstatSync path with
    | inl isDirectory => (Ok isDirectory, tr)
    | inr err => (Throw err, tr)
    end.

Definition getFileType (fs_lstatSync : jsstring -> bool + jsstring)
           (path : jsstring) : M EFileType :=
  try_catch
    (isDirectory <- lstatSync_isDirectory fs_lstatSync path ;;
     ret (if isDirectory then Directory else File))
    (fun err =>
       console_error (Plain (lit "Error getting file type: " ++ err)) ;;
       ret File).

Definition yaml_parse {Y} (parse : jsstring -> Y + jsstring) (text : jsstring) : M Y :=
  fun _ tr =>
    match parse text with
    | inl value => (Ok value, tr)
    | inr err => (Throw err, tr)
    end.

Definition readYamlFile {Y} (parse : jsstring -> Y + jsstring) (path : jsstring) : M Y :=
  content <- readFile path ;;
  yaml_parse parse content.

(** ** The chat-completion client *)

Record OpenAIApi := { apiKey : jsstring }.

Definition initOpenAI (apiKey : jsstring) : OpenAIApi := {| apiKey := apiKey |}.

Definition createChatCompletion (openai : OpenAIApi) (req : ICompletionRequest)
           (stream : bool) : M response_data :=
  fun w tr =>
    let tr' := tr ++ [CreateChatCompletion (apiKey openai) req stream] in
    match openai_createChatCompletion w (apiKey openai) req stream with
    | inl response => (Ok response, tr')
    | inr err => (Throw err, tr')
    end.

Definition option_bind {A B} (o : option A) (k : A -> option B) : option B :=
  match o with
  | Some a => k a
  | None => None
  end.

(** [response.data.choices[0].message.content]: [None] is a TypeError. *)
Definition message_content (response : response_data) : option jsval :=
  match response with
  | DataStream _ => None
  | Data data =>
      option_bind (get_prop data (lit "choices")) (fun choices =>
      option_bind (get_first choices) (fun choice =>
      option_bind (get_prop choice (lit "message")) (fun message =>
      get_prop message (lit "content"))))
  end.

(** [content?.replace(regex, ...)]: [undefined] when the content is
    [undefined] or [null], the replacement on a string, a TypeError on
    anything else (it has no method [replace]). *)
Definition optional_replace (content : jsval) : option jsval :=
  match content with
  | JUndefined | JNull => Some JUndefined
  | JStr s => Some (JStr (replace_fence_lines AtLineStart s))
  | _ => None
  end.

Definition getTestContent (completionRequest : ICompletionRequest)
           (openai : OpenAIApi) : M jsval :=
  response <- createChatCompletion openai completionRequest false ;;
  eval (option_bind (message_content response) optional_replace).

(** ** Streaming *)

Definition DATA_PREFIX : jsstring := lit "data: ".
Definition DONE : jsstring := lit "[DONE]".

(** [chunk.toString("utf8").split("\n").filter(line => line.trim().startsWith("data: "))] *)
Definition data_lines (chunk : jsstring) : list jsstring :=
  filter (fun line => startsWith (trim line) DATA_PREFIX) (split LF chunk).

(** [line.replace(regex, empty)] for the regex [^data: ]: without the
    flag [m], [^] is the start of the string only. *)
Definition replace_data_prefix (line : jsstring) : jsstring :=
  if startsWith line DATA_PREFIX then skipn (List.length DATA_PREFIX) line else line.

(** [json.choices[0].delta.content] *)
Definition delta_content (json : jsval) : option jsval :=
  option_bind (get_prop json (lit "choices")) (fun choices =>
  option_bind (get_first choices) (fun choice =>
  option_bind (get_prop choice (lit "delta")) (fun delta =>
  get_prop delta (lit "content")))).

(** How a loop body ends: it falls through to the next iteration, or it
    executes [return]. *)
Inductive completion := Normal | Return.

(** [for (const line of lines) { ... }] *)
Fixpoint for_lines (onToken : jsval -> M unit) (lines : list jsstring) : M completion :=
  match lines with
  | [] => ret Normal
  | line :: rest =>
      let message := replace_data_prefix line in
      if eqb_str message DONE then ret Return
      else
        json <- parse message ;;
        token <- eval (delta_content json) ;;
        (if truthy token then onToken token else ret tt) ;;
        for_lines onToken rest
  end.

(** [for await (const chunk of response.data) { ... }] *)
Fixpoint for_chunks (onToken : jsval -> M unit) (chunks : list jsstring) : M unit :=
  match chunks with
  | [] => ret tt
  | chunk :: rest =>
      c <- for_lines onToken (data_lines chunk) ;;
      match c with
      | Return => ret tt
      | Normal => for_chunks onToken rest
      end
  end.

Definition streamTestContent (completionRequest : ICompletionRequest)
           (openai : OpenAIApi) (onToken : jsval -> M unit) : M unit :=
  response <- createChatCompletion openai completionRequest true ;;
  match response with
  | DataStream chunks => for_chunks onToken chunks
  | Data _ => throw TypeError
  end.

(** ** The entry point *)

Record IAutoTestArgs := {
  inputFile : jsstring;
  outputFile : jsstring;
  arg_apiKey : jsstring;
  arg_model : IModel;
  examples : option (list IExample);
  arg_techs : option (list jsstring);
  arg_tips : option (list jsstring);
  stream : option bool
}.

Definition autoTest (args : IAutoTestArgs) : M unit :=
  console_log (Blue (lit "Reading input file...")) ;;
  content <-
    try_catch
      (readFile (inputFile args))
      (fun err =>
         console_error (Red (lit "Error reading file: " ++ err)) ;;
         process_exit 1%Z) ;;
  console_log (Blue (lit "Generating tests...")) ;;
  let openai := initOpenAI (arg_apiKey args) in
  let promptArgs :=
    {| content := content;
       fileName := inputFile args;
       techs := arg_techs args;
       tips := arg_tips args |} in
  let prompt := getPrompt promptArgs in
  let exampleMessages := getExampleMessages promptArgs (examples args) in
  let completionRequest :=
    getCompletionRequest (arg_model args) prompt exampleMessages in
  match stream args with
  | Some true =>
      streamTestContent completionRequest openai
        (fun token => writeToFile (outputFile args) token (Some true))
  | _ =>
      testContent <- getTestContent completionRequest openai ;;
      writeToFile (outputFile args) testContent None
  end.

(** ** Vocabulary of the properties *)

(** The request [autoTest] builds once it has the content of the input
    file. *)
Definition promptArgs_of (args : IAutoTestArgs) (content : jsstring) : iGetPromptArgs :=
  {| content := content;
     fileName := inputFile args;
     techs := arg_techs args;
     tips := arg_tips args |}.

Definition completionRequest_of (args : IAutoTestArgs) (content : jsstring)
  : ICompletionRequest :=
  let promptArgs := promptArgs_of args content in
  let prompt := getPrompt promptArgs in
  let exampleMessages := getExampleMessages promptArgs (examples args) in
  getCompletionRequest (arg_model args) prompt exampleMessages.

(** The lines of a text in the sense of the regular expression: the text
    cut at every line terminator. *)
Definition regex_lines (s : jsstring) : list jsstring := split_at is_line_terminator s.

(** What the replacement leaves of one line. *)
Definition blank_fence (line : jsstring) : jsstring :=
  if startsWith line FENCE then [] else line.

(** Calling a callback on each element in turn. *)
Fixpoint for_each {A} (f : A -> M unit) (xs : list A) : M unit :=
  match xs with
  | [] => ret tt
  | x :: rest => f x ;; for_each f rest
  end.

(** A callback that only records the token it is given. *)
Definition record_token (token : jsval) : M unit := emit (Token token).

(** The terminator line of a stream. *)
Definition DONE_LINE : jsstring := DATA_PREFIX ++ DONE.

(** The delta token carried by a data line, when the line has one. *)
Definition line_token (w : World) (line : jsstring) : option jsval :=
  option_bind (JSON_parse w (replace_data_prefix line)) delta_content.

(** The non-empty delta tokens of a list of data lines, in order. *)
Definition delta_tokens (w : World) (lines : list jsstring) : list jsval :=
  flat_map (fun line =>
              match line_token w line with
              | Some token => if truthy token then [token] else []
              | None => []
              end) lines.

(** A data line that is not the terminator and carries a readable delta. *)
Definition clean (w : World) (line : jsstring) : Prop :=
  eqb_str (replace_data_prefix line) DONE = false /\ line_token w line <> None.

(** The file-system writes in a trace, in order. *)
Definition write_calls (tr : list event) : list (jsstring * jsval * jsstring) :=
  flat_map (fun e =>
              match e with
              | WriteFileSync path data flag => [(path, data, flag)]
              | _ => []
              end) tr.

(** The calls out of the process in a trace (everything but console
    output), in order. *)
Definition is_call (e : event) : bool :=
  match e with
  | ConsoleLog _ | ConsoleError _ => false
  | _ => true
  end.

Definition calls (tr : list event) : list event := filter is_call tr.

(** [prompt] ends with a fenced code block whose enclosed text is
    [content]: apart from blank lines at the very end, the last line is a
    fence, the lines before it are the lines of [content], and the line
    before those is a fence.  A fence line is three backticks, possibly
    indented. *)
Definition is_fence_line (line : jsstring) : bool := eqb_str (trim line) FENCE.

Definition is_blank_line (line : jsstring) : bool := eqb_str (trim line) [].

Fixpoint drop_while {A} (p : A -> bool) (xs : list A) : list A :=
  match xs with
  | [] => []
  | x :: rest => if p x then drop_while p rest else xs
  end.

Fixpoint eqb_lines (a b : list jsstring) : bool :=
  match a, b with
  | [], [] => true
  | x :: a', y :: b' => eqb_str x y && eqb_lines a' b'
  | _, _ => false
  end.

Definition ends_with_fenced_block (prompt content : jsstring) : bool :=
  let enclosed := split LF content in
  match drop_while is_blank_line (rev (split LF prompt)) with
  | closing :: above =>
      is_fence_line closing
      && eqb_lines (rev (firstn (List.length enclosed) above)) enclosed
      && match skipn (List.length enclosed) above with
         | opening :: _ => is_fence_line opening
         | [] => false
         end
  | [] => false
  end.

(** The flag [writeToFile] passes for a given [append]. *)
Definition write_flag (append : option bool) : jsstring :=
  match append with Some true => lit "a" | _ => lit "w" end.

(** The content [autoTest] works with: what [readFile] returns. *)
Definition input_content (w : World) (args : IAutoTestArgs) : jsstring :=
  match fs_readFileSync w (inputFile args) with
  | inl fileContent => fileContent
  | inr _ => []
  end.

(** [autoTest] up to the request: two log lines around the read, a third
    when the read fails, and then one of the two ways to the output. *)
Definition preamble (w : World) (args : IAutoTestArgs) : list event :=
  [ConsoleLog (Blue (lit "Reading input file..."))]
    ++ match fs_readFileSync w (inputFile args) with
       | inl _ => [ReadFileSync (inputFile args)]
       | inr err => [ReadFileSync (inputFile args);
                     ConsoleError (Plain (lit "Error reading file: " ++ err))]
       end
    ++ [ConsoleLog (Blue (lit "Generating tests..."))].

(** The tokens recorded in a trace, in order. *)
Definition tokens_of (tr : list event) : list jsval :=
  flat_map (fun e => match e with Token token => [token] | _ => [] end) tr.

(** The tokens [streamTestContent] hands to its callback: those a
    callback that only records them gets to see. *)
Definition received_tokens (w : World) (req : ICompletionRequest) (openai : OpenAIApi)
  : list jsval :=
  tokens_of (snd (streamTestContent req openai record_token w [])).

(** Two runs are related by [R] when, started on related traces, they end
    with the same outcome and on related traces. *)
Definition related {A} (R : list event -> list event -> Prop)
           (c1 c2 : list event -> outcome A * list event) : Prop :=
  forall tr1 tr2, R tr1 tr2 ->
    fst (c1 tr1) = fst (c2 tr2) /\ R (snd (c1 tr1)) (snd (c2 tr2)).

(** A run that does not end in [process.exit]. *)
Definition never_exits {A} (c : list event -> outcome A * list event) : Prop :=
  forall tr exit_code, fst (c tr) <> Exit exit_code.

(** Two worlds that differ at most in what the writes do. *)
Definition same_but_writes (w1 w2 : World) : Prop :=
  (forall path, fs_readFileSync w1 path = fs_readFileSync w2 path)
  /\ (forall text, JSON_parse w1 text = JSON_parse w2 text)
  /\ (forall key req s,
         openai_createChatCompletion w1 key req s = openai_createChatCompletion w2 key req s).

(** The property of the streaming loop as the specification words it:
    whatever the chunks of the response, when their data lines contain
    the terminator the run returns normally, having handed over exactly
    the non-empty delta tokens of the lines before the first terminator,
    in order. *)
Definition stops_at_terminator (w : World) (req : ICompletionRequest)
           (openai : OpenAIApi) (chunks : list jsstring) : Prop :=
  forall before after,
    openai_createChatCompletion w (apiKey openai) req true = inl (DataStream chunks) ->
    flat_map data_lines chunks = before ++ DONE_LINE :: after ->
    ~ In DONE_LINE before ->
    streamTestContent req openai record_token w []
    = (Ok tt, CreateChatCompletion (apiKey openai) req true
                :: map Token (delta_tokens w before)).

(** Whether [autoTest] takes the streaming branch: [if (stream)]. *)
Definition streamed (args : IAutoTestArgs) : bool :=
  match stream args with Some true => true | _ => false end.

(** A write of [autoTest]'s output file in its mode: flag [a] when
    streaming, [w] otherwise. *)
Definition output_write (args : IAutoTestArgs) (e : event) : Prop :=
  exists data, e = WriteFileSync (outputFile args) data
                     (if streamed args then lit "a" else lit "w").

(** The number of examples given to [autoTest]. *)
Definition example_count (args : IAutoTestArgs) : nat :=
  match examples args with Some exs => List.length exs | None => 0 end.

(** The lines, cut at LF, of items joined with CR LF when no item holds
    an LF: every item but the last keeps the CR. *)
Fixpoint lines_of_joined (items : list jsstring) : list jsstring :=
  match items with
  | [] => [[]]
  | [x] => [x]
  | x :: rest => (x ++ [CR]) :: lines_of_joined rest
  end.

(** ** Sample inputs *)

Definition sample_promptArgs : iGetPromptArgs :=
  {| content := lit "x"; fileName := lit "f.ts"; techs := None; tips := None |}.

Definition sample_listArgs : iGetPromptArgs :=
  {| content := lit "x";
     fileName := lit "f.ts";
     techs := Some [lit "jest"; lit "react"];
     tips := Some [lit "mock the network"] |}.

Definition QUOTE : N := 34%N.

Definition quoted (s : string) : jsstring := [QUOTE] ++ lit s ++ [QUOTE].

(** The JSON text of a streamed delta carrying [token], and the value
    [JSON.parse] makes of it. *)
Definition delta_text (token : string) : jsstring :=
  lit "{" ++ quoted "choices" ++ lit ":[{" ++ quoted "delta" ++ lit ":{"
      ++ quoted "content" ++ lit ":" ++ quoted token ++ lit "}}]}".

Definition delta_json (token : string) : jsval :=
  JObj [(lit "choices",
         JArr [JObj [(lit "delta", JObj [(lit "content", JStr (lit token))])]])].

(** [JSON.parse] on the texts of the samples: the deltas for the tokens
    [a], [b] and [c] parse, and no other text occurring in the samples is
    JSON. *)
Definition sample_JSON_parse (text : jsstring) : option jsval :=
  if eqb_str text (delta_text "a") then Some (delta_json "a")
  else if eqb_str text (delta_text "b") then Some (delta_json "b")
  else if eqb_str text (delta_text "c") then Some (delta_json "c")
  else None.

(** A world given by what the read returns, whether writes fail, and
    what the chat-completion call returns, streamed or not. *)
Definition sample_world (read : jsstring + jsstring) (write_fails : bool)
           (api : bool -> response_data + jsstring) : World :=
  {| fs_readFileSync := fun _ => read;
     fs_writeFileSync := fun _ _ _ _ => if write_fails then Some (lit "EACCES") else None;
     JSON_parse := sample_JSON_parse;
     openai_createChatCompletion := fun _ _ streamed => api streamed |}.

Definition sample_args (stream : option bool) : IAutoTestArgs :=
  {| inputFile := lit "sum.ts";
     outputFile := lit "sum.test.ts";
     arg_apiKey := lit "key";
     arg_model := gpt_4;
     examples := None;
     arg_techs := None;
     arg_tips := None;
     stream := stream |}.

(** A response whose single choice has the given message content. *)
Definition message_response (content : jsval) : response_data :=
  Data (JObj [(lit "choices", JArr [JObj [(lit "message", JObj [(lit "content", content)])]])]).

Definition sample_response : response_data :=
  message_response
    (JStr (FENCE ++ lit "ts" ++ [LF] ++ lit "test(sum)" ++ [LF] ++ FENCE)).

(** A stream in which the second event is cut by a chunk boundary. *)
Definition sample_cut_chunks : list jsstring :=
  [ DATA_PREFIX ++ delta_text "a" ++ [LF; LF]
      ++ DATA_PREFIX ++ firstn 20 (delta_text "b");
    skipn 20 (delta_text "b") ++ [LF; LF]
      ++ DATA_PREFIX ++ delta_text "c" ++ [LF; LF]
      ++ DONE_LINE ++ [LF; LF] ].

(** A stream of whole events. *)
Definition sample_chunks : list jsstring :=
  [ DATA_PREFIX ++ delta_text "a" ++ [LF; LF] ++ DATA_PREFIX ++ delta_text "b" ++ [LF; LF];
    DATA_PREFIX ++ delta_text "c" ++ [LF; LF] ++ DONE_LINE ++ [LF; LF]
      ++ DATA_PREFIX ++ delta_text "a" ++ [LF] ].

Definition sample_api (streamed : bool) : response_data + jsstring :=
  if streamed then inl (DataStream sample_chunks) else inl sample_response.

Definition sample_cut_api (streamed : bool) : response_data + jsstring :=
  if streamed then inl (DataStream sample_cut_chunks) else inl sample_response.

Definition sample_request : ICompletionRequest :=
  getCompletionRequest gpt_4 (lit "prompt") [].

Definition sample_openai : OpenAIApi := initOpenAI (lit "key").

(** A file system in which [src] is a directory, [sum.ts] a file and
    nothing else exists. *)
Definition sample_lstatSync (path : jsstring) : bool + jsstring :=
  if eqb_str path (lit "src") then inl true
  else if eqb_str path (lit "sum.ts") then inl false
  else inr (lit "ENOENT").

(** A YAML parser on the texts of the samples: the empty document is
    [null], and [techs: []] is an object with an empty list. *)
Definition sample_yaml_parse (text : jsstring) : jsval + jsstring :=
  if eqb_str text [] then inl JNull
  else if eqb_str text (lit "techs: []") then inl (JObj [(lit "techs", JArr [])])
  else inr (lit "YAMLParseError").

(** A stream with CR LF line ends: its terminator line ends with CR. *)
Definition sample_crlf_chunks : list jsstring :=
  [ DATA_PREFIX ++ delta_text "a" ++ [LF; LF]
      ++ DONE_LINE ++ [CR; LF]
      ++ DATA_PREFIX ++ delta_text "b" ++ [LF] ].

Definition sample_crlf_api (streamed : bool) : response_data + jsstring :=
  if streamed then inl (DataStream sample_crlf_chunks) else inl sample_response.

(** A stream that ends without a terminator. *)
Definition sample_open_chunks : list jsstring :=
  [ DATA_PREFIX ++ delta_text "a" ++ [LF; LF];
    DATA_PREFIX ++ delta_text "b" ++ [LF; LF] ].

Definition sample_open_api (streamed : bool) : response_data + jsstring :=
  if streamed then inl (DataStream sample_open_chunks) else inl sample_response.

(** * Properties *)

(** ** Strings and lists *)

Lemma eqb_str_eq (a b : jsstring) : eqb_str a b = true <-> a = b.
Proof.
  revert b; induction a as [|x a IH]; intros [|y b]; simpl; split;
    try congruence; try reflexivity.
  - intros H. apply andb_true_iff in H as [Hxy Hab].
    apply N.eqb_eq in Hxy. apply IH in Hab. congruence.
  - intros H. injection H as -> ->. rewrite N.eqb_refl. simpl. now apply IH.
Qed.

Lemma startsWith_inv (s p : jsstring) :
  startsWith s p = true -> exists rest, s = p ++ rest.
Proof.
  revert s; induction p as [|x p IH]; intros s H; simpl in *.
  - now exists s.
  - destruct s as [|y s]; [discriminate|].
    apply andb_true_iff in H as [Hxy H]. apply N.eqb_eq in Hxy. subst y.
    destruct (IH _ H) as [rest ->]. now exists rest.
Qed.

Lemma split_at_not_nil (p : N -> bool) (s : jsstring) : split_at p s <> [].
Proof.
  destruct s as [|c s]; simpl; [discriminate|].
  destruct (p c); [discriminate|]. destruct (split_at p s); discriminate.
Qed.

Lemma map_index_length {A B} (f : A -> nat -> B) (arr : list A) (from : nat) :
  List.length (map_index f from arr) = List.length arr.
Proof. revert from; induction arr; simpl; intros; [reflexivity|now rewrite IHarr]. Qed.

Lemma map_index_nth {A B} (f : A -> nat -> B) (arr : list A) (from i : nat) (d : A) (d' : B) :
  i < List.length arr ->
  nth i (map_index f from arr) d' = f (nth i arr d) (from + i).
Proof.
  revert from i; induction arr as [|x arr IH]; simpl; intros from i Hi; [lia|].
  destruct i as [|i].
  - now rewrite Nat.add_0_r.
  - rewrite (IH (S from) i) by lia. f_equal. lia.
Qed.

(** The [i]-th element of a joined list sits between separators. *)
Lemma join_nth (sep : jsstring) (items : list jsstring) (i : nat) :
  i < List.length items ->
  exists before after,
    join sep items = before ++ nth i items [] ++ after
    /\ (i = 0 -> before = [])
    /\ (0 < i -> exists b, before = b ++ sep)
    /\ (S i = List.length items -> after = [])
    /\ (S i < List.length items -> exists a, after = sep ++ a).
Proof.
  revert i; induction items as [|x items IH]; intros i Hi; simpl in Hi; [lia|].
  destruct items as [|y items].
  - assert (i = 0) by (simpl in Hi; lia). subst i.
    exists [], []. simpl. rewrite app_nil_r.
    repeat split; try reflexivity; intros; lia.
  - destruct i as [|i].
    + exists [], (sep ++ join sep (y :: items)).
      repeat split; try reflexivity; try (intros; simpl in *; lia).
      intros _. now eexists.
    + destruct (IH i) as (b & a & E & Hb0 & Hb & Ha1 & Ha2); [simpl in *; lia|].
      exists (x ++ sep ++ b), a.
      change (join sep (x :: y :: items)) with (x ++ sep ++ join sep (y :: items)).
      rewrite E. change (nth (S i) (x :: y :: items) []) with (nth i (y :: items) []).
      repeat split.
      * now rewrite <- !app_assoc.
      * intros; lia.
      * intros _. destruct i as [|i].
        -- exists x. rewrite Hb0 by reflexivity. now rewrite app_nil_r.
        -- destruct Hb as [b' ->]; [lia|]. exists (x ++ sep ++ b').
           now rewrite <- !app_assoc.
      * intros H. apply Ha1. simpl in *. lia.
      * intros H. apply Ha2. simpl in *. lia.
Qed.

(** ** Prompt construction *)

Example number_toString_12 : number_toString 12 = lit "12".
Proof. reflexivity. Qed.

Example toList_three :
  toList [lit "jest"; lit "react"; lit "msw"]
  = lit "1. jest" ++ [CR; LF] ++ lit "2. react" ++ [CR; LF] ++ lit "3. msw".
Proof. reflexivity. Qed.

(** [toList] joins one rendered item per element with CR LF, and the item
    at position [i] (from 1) is the number [i], a dot, a space and the
    element. *)
Lemma toList_items (arr : list jsstring) :
  exists items,
    toList arr = join [CR; LF] items
    /\ List.length items = List.length arr
    /\ forall i, 1 <= i <= List.length arr ->
         nth (i - 1) items [] = number_toString i ++ lit ". " ++ nth (i - 1) arr [].
Proof.
  eexists. split; [reflexivity|]. split; [apply map_index_length|].
  intros i Hi. rewrite map_index_nth with (d := []) by (unfold jsstring in *; lia).
  simpl. replace (i - 1 + 1) with i by lia. reflexivity.
Qed.

Lemma has_length_some {A} (xs : list A) : xs <> [] -> has_length (Some xs) = Some xs.
Proof. destruct xs; [congruence|reflexivity]. Qed.

(** C5.  When a prompt is built from a non-empty list of technologies and
    a non-empty list of tips, both numbered lists are in the prompt as
    [toList] renders them, and [toList] numbers from 1: in its output the
    [i]-th element, for every [i] from 1 to the length of the list, is
    the line [i. element], lines being separated by CR LF (nothing before
    the first line, nothing after the last). *)
Theorem toList_one_indexed (args : iGetPromptArgs) (ts ps : list jsstring) :
  techs args = Some ts -> ts <> [] ->
  tips args = Some ps -> ps <> [] ->
  (exists a b c, getPrompt args = a ++ toList ts ++ b ++ toList ps ++ c)
  /\ forall arr, arr = ts \/ arr = ps ->
     forall i, 1 <= i <= List.length arr ->
       let line := number_toString i ++ lit ". " ++ nth (i - 1) arr [] in
       exists before after,
         toList arr = before ++ line ++ after
         /\ (i = 1 -> before = [])
         /\ (1 < i -> exists b, before = b ++ [CR; LF])
         /\ (i = List.length arr -> after = [])
         /\ (i < List.length arr -> exists a, after = [CR; LF] ++ a).
Proof.
  intros Ht Hts Hp Hps. split.
  - unfold getPrompt. rewrite Ht, Hp, !has_length_some by assumption.
    exists (lit "I need unit tests for a file called " ++ fileName args
            ++ lit " using the following technologies: " ++ [LF] ++ lit "      ").
    exists ([LF] ++ lit "    " ++ lit "Here are some tips: " ++ [LF] ++ lit "      ").
    eexists. rewrite <- !app_assoc. reflexivity.
  - intros arr _ i Hi line.
    destruct (toList_items arr) as (items & E & Hlen & Hnth).
    destruct (@join_nth [CR; LF] items (i - 1)) as (b & a & Ej & Hb0 & Hb & Ha0 & Ha);
      [lia|].
    exists b, a. rewrite E, Ej, Hnth by lia. split; [reflexivity|].
    repeat split.
    + intros ->. now apply Hb0.
    + intros H. apply Hb. lia.
    + intros H. apply Ha0. lia.
    + intros H. apply Ha. lia.
Qed.

Lemma toList_one_indexed_witness :
  (exists a b c,
      getPrompt sample_listArgs
      = a ++ toList [lit "jest"; lit "react"] ++ b ++ toList [lit "mock the network"] ++ c)
  /\ forall arr, arr = [lit "jest"; lit "react"] \/ arr = [lit "mock the network"] ->
     forall i, 1 <= i <= List.length arr ->
       let line := number_toString i ++ lit ". " ++ nth (i - 1) arr [] in
       exists before after,
         toList arr = before ++ line ++ after
         /\ (i = 1 -> before = [])
         /\ (1 < i -> exists b, before = b ++ [CR; LF])
         /\ (i = List.length arr -> after = [])
         /\ (i < List.length arr -> exists a, after = [CR; LF] ++ a).
Proof.
  apply (@toList_one_indexed sample_listArgs
           [lit "jest"; lit "react"] [lit "mock the network"]);
    [reflexivity | discriminate | reflexivity | discriminate].
Defined.

(** C2, as the code has it.  The prompt starts with the opening sentence
    and the file name, and ends with the template's last lines: the
    announcement, a line of four spaces and three backticks, a line made
    of four spaces followed by the content, again four spaces and three
    backticks, and a last line of two spaces. *)
Theorem getPrompt_shape (args : iGetPromptArgs) :
  exists middle,
    getPrompt args
    = lit "I need unit tests for a file called " ++ fileName args ++ middle
      ++ lit "Here is the file content: " ++ [LF]
      ++ lit "    " ++ FENCE ++ [LF]
      ++ lit "    " ++ content args ++ [LF]
      ++ lit "    " ++ FENCE ++ [LF]
      ++ lit "  ".
Proof.
  unfold getPrompt.
  destruct (has_length (techs args)) as [ts|], (has_length (tips args)) as [ps|].
  - exists (lit " using the following technologies: " ++ [LF]
            ++ lit "      " ++ toList ts ++ [LF] ++ lit "    "
            ++ lit "Here are some tips: " ++ [LF]
            ++ lit "      " ++ toList ps ++ [LF] ++ lit "    " ++ ANSWER_ONLY).
    rewrite <- !app_assoc. reflexivity.
  - exists (lit " using the following technologies: " ++ [LF]
            ++ lit "      " ++ toList ts ++ [LF] ++ lit "    " ++ ANSWER_ONLY).
    rewrite <- !app_assoc. reflexivity.
  - exists (lit "Here are some tips: " ++ [LF]
            ++ lit "      " ++ toList ps ++ [LF] ++ lit "    " ++ ANSWER_ONLY).
    rewrite <- !app_assoc. reflexivity.
  - exists ANSWER_ONLY. rewrite <- !app_assoc. reflexivity.
Qed.

(** C2, as the specification has it, fails: the text between the two
    fence lines of the prompt for content [x] is [x] behind four spaces,
    not [x]. *)
Lemma getPrompt_block_is_indented :
  ends_with_fenced_block (getPrompt sample_promptArgs) (content sample_promptArgs) = false
  /\ ends_with_fenced_block (getPrompt sample_promptArgs) (lit "    x") = true.
Proof. split; vm_compute; reflexivity. Qed.

(** ** Requests *)

(** C6.  The messages of a request are the system message, then the
    example messages as given, then the user message with the prompt:
    nothing else, each once, in this order. *)
Theorem getCompletionRequest_order (m : IModel) (prompt : jsstring) (exs : list IMessage) :
  let req := getCompletionRequest m prompt exs in
  let user := {| role := User; msg_content := prompt |} in
  model req = m
  /\ messages req = SYSTEM_MESSAGE :: exs ++ [user]
  /\ List.length (messages req) = List.length exs + 2
  /\ nth_error (messages req) 0 = Some SYSTEM_MESSAGE
  /\ (forall i, i < List.length exs ->
        nth_error (messages req) (S i) = nth_error exs i)
  /\ nth_error (messages req) (S (List.length exs)) = Some user.
Proof.
  intros req user. subst req. simpl. repeat split.
  - rewrite length_app. simpl. lia.
  - intros i Hi. now rewrite nth_error_app1.
  - rewrite nth_error_app2 by lia. now rewrite Nat.sub_diag.
Qed.

(** C10.  For [n] examples [getExampleMessages] gives [2n] messages: at
    positions [2i] and [2i+1] the user message with the prompt for the
    [i]-th example's code and file name (technologies and tips as in the
    prompt arguments) and the assistant message with its tests; without
    an example list it gives no message. *)
Theorem getExampleMessages_pairs (promptArgs : iGetPromptArgs) (exs : list IExample) :
  getExampleMessages promptArgs None = []
  /\ List.length (getExampleMessages promptArgs (Some exs)) = 2 * List.length exs
  /\ forall i g, nth_error exs i = Some g ->
       nth_error (getExampleMessages promptArgs (Some exs)) (2 * i)
       = Some {| role := User;
                 msg_content :=
                   getPrompt {| content := code g; fileName := ex_fileName g;
                                techs := techs promptArgs; tips := tips promptArgs |} |}
       /\ nth_error (getExampleMessages promptArgs (Some exs)) (2 * i + 1)
          = Some {| role := Assistant; msg_content := tests g |}.
Proof.
  split; [reflexivity|]. unfold getExampleMessages. split.
  - induction exs as [|g exs IH]; simpl; [reflexivity|]. rewrite IH. lia.
  - induction exs as [|g0 exs IH]; intros i g Hi.
    + destruct i; discriminate.
    + destruct i as [|i].
      * injection Hi as ->. split; reflexivity.
      * simpl in Hi. destruct (IH i g Hi) as [Hu Ha].
        replace (2 * S i) with (S (S (2 * i))) by lia.
        replace (S (S (2 * i)) + 1) with (S (S (2 * i + 1))) by lia.
        split; simpl; assumption.
Qed.

(** ** Stripping the fences *)

Example replace_fence_lines_sample :
  replace_fence_lines AtLineStart
    (FENCE ++ lit "ts" ++ [LF] ++ lit "it(1) // ``` here" ++ [LF] ++ FENCE ++ [LF])
  = [LF] ++ lit "it(1) // ``` here" ++ [LF] ++ [LF].
Proof. reflexivity. Qed.

Lemma regex_lines_cons (c : N) (s : jsstring) :
  regex_lines (c :: s)
  = if is_line_terminator c then [] :: regex_lines s
    else (c :: hd [] (regex_lines s)) :: tl (regex_lines s).
Proof.
  unfold regex_lines. simpl. destruct (is_line_terminator c); [reflexivity|].
  destruct (split_at is_line_terminator s) eqn:E; [|reflexivity].
  now apply split_at_not_nil in E.
Qed.

(** A prefix without line terminators is a prefix of the first line. *)
Lemma startsWith_first_line (p s : jsstring) :
  forallb (fun c => negb (is_line_terminator c)) p = true ->
  startsWith s p = startsWith (hd [] (regex_lines s)) p.
Proof.
  revert s; induction p as [|x p IH]; intros s Hp; [reflexivity|].
  simpl in Hp. apply andb_true_iff in Hp as [Hx Hp].
  destruct s as [|y s]; [reflexivity|].
  rewrite regex_lines_cons. simpl.
  destruct (is_line_terminator y) eqn:Hy; simpl.
  - destruct (N.eqb_spec x y) as [->|]; [|reflexivity].
    rewrite Hy in Hx. discriminate.
  - now rewrite IH.
Qed.

Lemma fence_has_no_terminator :
  forallb (fun c => negb (is_line_terminator c)) FENCE = true.
Proof. reflexivity. Qed.

Lemma fence_starts_line (c : N) (s : jsstring) :
  startsWith (c :: s) FENCE = true -> is_line_terminator c = false.
Proof.
  change (startsWith (c :: s) FENCE)
    with ((BACKTICK =? c)%N && startsWith s [BACKTICK; BACKTICK]).
  intros H. apply andb_true_iff in H as [H _].
  apply N.eqb_eq in H. now subst c.
Qed.

(** What the scanner leaves of the lines, from each of its states. *)
Lemma replace_fence_lines_lines (s : jsstring) :
  regex_lines (replace_fence_lines AtLineStart s) = map blank_fence (regex_lines s)
  /\ regex_lines (replace_fence_lines InLine s)
     = hd [] (regex_lines s) :: map blank_fence (tl (regex_lines s))
  /\ regex_lines (replace_fence_lines InMatch s)
     = [] :: map blank_fence (tl (regex_lines s)).
Proof.
  induction s as [|c s (IHstart & IHline & IHmatch)]; [now repeat split|].
  assert (Hfirst : startsWith (c :: s) FENCE
                   = startsWith (hd [] (regex_lines (c :: s))) FENCE)
    by (apply startsWith_first_line, fence_has_no_terminator).
  rewrite regex_lines_cons in *.
  cbn [replace_fence_lines]. unfold after.
  destruct (is_line_terminator c) eqn:Hc.
  - assert (Hs : startsWith (c :: s) FENCE = false).
    { destruct (startsWith (c :: s) FENCE) eqn:E; [|reflexivity].
      apply fence_starts_line in E. congruence. }
    rewrite Hs, !regex_lines_cons, Hc, IHstart. now repeat split.
  - cbn [hd tl] in *. repeat split.
    + destruct (startsWith (c :: s) FENCE) eqn:E.
      * rewrite IHmatch. cbn [map]. unfold blank_fence at 2. now rewrite <- Hfirst.
      * rewrite regex_lines_cons, Hc, IHline. cbn [hd tl map].
        unfold blank_fence at 2. now rewrite <- Hfirst.
    + rewrite regex_lines_cons, Hc, IHline. reflexivity.
    + exact IHmatch.
Qed.

Lemma replace_fence_lines_terminators (st : scan) (s : jsstring) :
  filter is_line_terminator (replace_fence_lines st s) = filter is_line_terminator s.
Proof.
  revert st; induction s as [|c s IH]; intros st; [reflexivity|].
  cbn [replace_fence_lines filter].
  destruct st.
  - destruct (startsWith (c :: s) FENCE) eqn:E.
    + apply fence_starts_line in E. now rewrite E, IH.
    + cbn [filter]. now rewrite IH.
  - cbn [filter]. now rewrite IH.
  - destruct (is_line_terminator c) eqn:Hc; cbn [filter]; rewrite ?Hc, IH; reflexivity.
Qed.

Lemma blank_fence_not_fence (line : jsstring) : startsWith (blank_fence line) FENCE = false.
Proof.
  unfold blank_fence. destruct (startsWith line FENCE) eqn:E; [reflexivity|exact E].
Qed.

(** C4.  When the response carries a message content that is a string,
    [getTestContent] returns a string in which every line starting with
    three backticks has been emptied: no line of the result starts with
    three backticks, every other line is the line of the content at the
    same position, and the line terminators are those of the content.
    Lines are what the regular expression takes for lines. *)
Theorem getTestContent_strips_fences (w : World) (tr : list event)
        (req : ICompletionRequest) (openai : OpenAIApi)
        (response : response_data) (content : jsstring) :
  openai_createChatCompletion w (apiKey openai) req false = inl response ->
  message_content response = Some (JStr content) ->
  exists result,
    fst (getTestContent req openai w tr) = Ok (JStr result)
    /\ regex_lines result = map blank_fence (regex_lines content)
    /\ Forall (fun line => startsWith line FENCE = false) (regex_lines result)
    /\ (forall i line, nth_error (regex_lines content) i = Some line ->
          startsWith line FENCE = false ->
          nth_error (regex_lines result) i = Some line)
    /\ filter is_line_terminator result = filter is_line_terminator content.
Proof.
  intros Hapi Hmsg. exists (replace_fence_lines AtLineStart content).
  destruct (replace_fence_lines_lines content) as [Hlines _].
  split; [|split; [exact Hlines|split; [|split]]].
  - unfold getTestContent, bind, createChatCompletion.
    rewrite Hapi, Hmsg. reflexivity.
  - rewrite Hlines. apply Forall_forall. intros l Hl.
    apply in_map_iff in Hl as (l0 & <- & _). apply blank_fence_not_fence.
  - intros i line Hi Hline. rewrite Hlines, nth_error_map, Hi. simpl.
    unfold blank_fence. now rewrite Hline.
  - apply replace_fence_lines_terminators.
Qed.

(** ** Running the helpers *)

Lemma readFile_run (path : jsstring) (w : World) (tr : list event) :
  readFile path w tr
  = match fs_readFileSync w path with
    | inl fileContent => (Ok fileContent, tr ++ [ReadFileSync path])
    | inr err =>
        (Ok [], tr ++ [ReadFileSync path;
                       ConsoleError (Plain (lit "Error reading file: " ++ err))])
    end.
Proof.
  unfold readFile, try_catch, bind, readFileSync, console_error, emit, ret.
  destruct (fs_readFileSync w path); [reflexivity|].
  now rewrite <- app_assoc.
Qed.

Lemma writeToFile_run (path : jsstring) (content : jsval) (append : option bool)
      (w : World) (tr : list event) :
  writeToFile path content append w tr
  = (Ok tt,
     tr ++ [WriteFileSync path content (write_flag append);
            match fs_writeFileSync w tr path content (write_flag append) with
            | None => ConsoleLog (Green (lit "Successfully wrote to file: " ++ path))
            | Some err => ConsoleError (Plain (lit "Error writing to file: " ++ err))
            end]).
Proof.
  unfold writeToFile, try_catch, bind, writeFileSync, console_error, console_log, emit.
  fold (write_flag append).
  destruct (fs_writeFileSync w tr path content (write_flag append));
    now rewrite <- app_assoc.
Qed.

Lemma autoTest_run (args : IAutoTestArgs) (w : World) (tr : list event) :
  autoTest args w tr
  = let req := completionRequest_of args (input_content w args) in
    let openai := initOpenAI (arg_apiKey args) in
    match stream args with
    | Some true =>
        streamTestContent req openai
          (fun token => writeToFile (outputFile args) token (Some true))
          w (tr ++ preamble w args)
    | _ =>
        (testContent <- getTestContent req openai ;;
         writeToFile (outputFile args) testContent None) w (tr ++ preamble w args)
    end.
Proof.
  unfold autoTest, preamble, input_content, completionRequest_of, promptArgs_of.
  unfold bind at 1. unfold console_log at 1, emit at 1.
  unfold bind at 1. unfold try_catch. rewrite readFile_run.
  destruct (fs_readFileSync w (inputFile args)) as [c|err];
    unfold bind at 1; unfold console_log at 1, emit at 1;
    cbv zeta; rewrite <- !app_assoc; cbn [app];
    destruct (stream args) as [[|]|]; reflexivity.
Qed.

(** ** Reading *)

(** C9.  [readFile] never throws, and a read that throws gives the empty
    string, which is also what reading an empty file gives: the return
    value alone does not tell the two apart (only the console does). *)
Theorem readFile_failure_is_empty (w w' : World) (tr : list event)
        (path err : jsstring) :
  fs_readFileSync w path = inr err ->
  fs_readFileSync w' path = inl [] ->
  (forall w0 tr0 p, exists s, fst (readFile p w0 tr0) = Ok s)
  /\ readFile path w tr
     = (Ok [], tr ++ [ReadFileSync path;
                      ConsoleError (Plain (lit "Error reading file: " ++ err))])
  /\ fst (readFile path w tr) = fst (readFile path w' tr).
Proof.
  intros Hfail Hempty. split; [|split].
  - intros w0 tr0 p. rewrite readFile_run.
    destruct (fs_readFileSync w0 p); eexists; reflexivity.
  - now rewrite readFile_run, Hfail.
  - now rewrite !readFile_run, Hfail, Hempty.
Qed.

Lemma readFile_failure_is_empty_witness :
  (forall w0 tr0 p, exists s, fst (readFile p w0 tr0) = Ok s)
  /\ readFile (lit "sum.ts") (sample_world (inr (lit "ENOENT")) false sample_api) []
     = (Ok [], [ReadFileSync (lit "sum.ts");
                ConsoleError (Plain (lit "Error reading file: " ++ lit "ENOENT"))])
  /\ fst (readFile (lit "sum.ts")
            (sample_world (inr (lit "ENOENT")) false sample_api) [])
     = fst (readFile (lit "sum.ts")
              (sample_world (inl []) false sample_api) []).
Proof.
  apply (@readFile_failure_is_empty
           (sample_world (inr (lit "ENOENT")) false sample_api)
           (sample_world (inl []) false sample_api)
           [] (lit "sum.ts") (lit "ENOENT"));
    reflexivity.
Defined.

(** ** Relating two runs *)

Section Related.

Variable R : list event -> list event -> Prop.
Variables w1 w2 : World.

Lemma related_ret {A} (a : A) : related R (ret a w1) (ret a w2).
Proof. intros tr1 tr2 H. now split. Qed.

Lemma related_throw {A} (err : jsstring) :
  related R (@throw A err w1) (@throw A err w2).
Proof. intros tr1 tr2 H. now split. Qed.

Lemma related_eval {A} (e : option A) : related R (eval e w1) (eval e w2).
Proof. destruct e; [apply related_ret|apply related_throw]. Qed.

Lemma related_bind {A B} (m1 m2 : M A) (k1 k2 : A -> M B) :
  related R (m1 w1) (m2 w2) ->
  (forall a, related R (k1 a w1) (k2 a w2)) ->
  related R (bind m1 k1 w1) (bind m2 k2 w2).
Proof.
  intros Hm Hk tr1 tr2 H. unfold bind.
  destruct (Hm tr1 tr2 H) as [Ho Htr].
  destruct (m1 w1 tr1) as [o1 t1], (m2 w2 tr2) as [o2 t2]. simpl in Ho, Htr.
  subst o2. destruct o1 as [a|err|c]; [now apply Hk| |]; now split.
Qed.

Hypothesis same_parse : forall text, JSON_parse w1 text = JSON_parse w2 text.
Hypothesis same_api : forall key req s,
    openai_createChatCompletion w1 key req s = openai_createChatCompletion w2 key req s.
Hypothesis R_api : forall tr1 tr2 key req s,
    R tr1 tr2 ->
    R (tr1 ++ [CreateChatCompletion key req s]) (tr2 ++ [CreateChatCompletion key req s]).

Lemma related_parse (text : jsstring) : related R (parse text w1) (parse text w2).
Proof.
  intros tr1 tr2 H. unfold parse. rewrite same_parse.
  destruct (JSON_parse w2 text); now split.
Qed.

Lemma related_createChatCompletion (openai : OpenAIApi) (req : ICompletionRequest)
      (s : bool) :
  related R (createChatCompletion openai req s w1) (createChatCompletion openai req s w2).
Proof.
  intros tr1 tr2 H. unfold createChatCompletion. rewrite same_api.
  destruct (openai_createChatCompletion w2 (apiKey openai) req s);
    split; try reflexivity; now apply R_api.
Qed.

Lemma related_getTestContent (req : ICompletionRequest) (openai : OpenAIApi) :
  related R (getTestContent req openai w1) (getTestContent req openai w2).
Proof.
  apply related_bind; [apply related_createChatCompletion|].
  intros response. apply related_eval.
Qed.

(** The streaming loops with two callbacks that are related. *)
Variables onToken1 onToken2 : jsval -> M unit.
Hypothesis related_onToken :
  forall token, related R (onToken1 token w1) (onToken2 token w2).

Lemma related_for_lines (lines : list jsstring) :
  related R (for_lines onToken1 lines w1) (for_lines onToken2 lines w2).
Proof.
  induction lines as [|line rest IH]; [apply related_ret|].
  cbn [for_lines].
  destruct (eqb_str (replace_data_prefix line) DONE); [apply related_ret|].
  apply related_bind; [apply related_parse|]. intros json.
  apply related_bind; [apply related_eval|]. intros token.
  apply related_bind; [|intros _; exact IH].
  destruct (truthy token); [apply related_onToken|apply related_ret].
Qed.

Lemma related_for_chunks (chunks : list jsstring) :
  related R (for_chunks onToken1 chunks w1) (for_chunks onToken2 chunks w2).
Proof.
  induction chunks as [|chunk rest IH]; [apply related_ret|].
  cbn [for_chunks]. apply related_bind; [apply related_for_lines|].
  intros [|]; [exact IH|apply related_ret].
Qed.

Lemma related_streamTestContent (req : ICompletionRequest) (openai : OpenAIApi) :
  related R (streamTestContent req openai onToken1 w1)
            (streamTestContent req openai onToken2 w2).
Proof.
  apply related_bind; [apply related_createChatCompletion|].
  intros [data|chunks]; [apply related_throw|apply related_for_chunks].
Qed.

End Related.

(** ** Writing *)

Lemma calls_app (a b : list event) : calls (a ++ b) = calls a ++ calls b.
Proof. apply filter_app. Qed.

Lemma write_calls_app (a b : list event) :
  write_calls (a ++ b) = write_calls a ++ write_calls b.
Proof. apply flat_map_app. Qed.

Lemma tokens_of_app (a b : list event) : tokens_of (a ++ b) = tokens_of a ++ tokens_of b.
Proof. apply flat_map_app. Qed.

Lemma write_calls_preamble (w : World) (args : IAutoTestArgs) :
  write_calls (preamble w args) = [].
Proof. unfold preamble. now destruct (fs_readFileSync w (inputFile args)). Qed.

Lemma getTestContent_run (req : ICompletionRequest) (openai : OpenAIApi)
      (w : World) (tr : list event) :
  getTestContent req openai w tr
  = (match openai_createChatCompletion w (apiKey openai) req false with
     | inl response =>
         match option_bind (message_content response) optional_replace with
         | Some testContent => Ok testContent
         | None => Throw TypeError
         end
     | inr err => Throw err
     end,
     tr ++ [CreateChatCompletion (apiKey openai) req false]).
Proof.
  unfold getTestContent, bind, createChatCompletion.
  destruct (openai_createChatCompletion w (apiKey openai) req false); [|reflexivity].
  now destruct (option_bind (message_content r) optional_replace).
Qed.

(** Whatever the writes do, [writeToFile] relates traces with the same
    calls. *)
Lemma related_writeToFile (w1 w2 : World) (path : jsstring) (content : jsval)
      (append : option bool) :
  related (fun tr1 tr2 => calls tr1 = calls tr2)
          (writeToFile path content append w1) (writeToFile path content append w2).
Proof.
  intros tr1 tr2 H. rewrite !writeToFile_run. cbn [fst snd]. split; [reflexivity|].
  rewrite !calls_app, H. f_equal. unfold calls. cbn [filter is_call].
  destruct (fs_writeFileSync w1 tr1 path content (write_flag append)),
           (fs_writeFileSync w2 tr2 path content (write_flag append)); reflexivity.
Qed.

(** C8.  A write that throws makes [writeToFile] log the error and
    return normally; and since no outcome of a write reaches the caller,
    [autoTest] ends the same way and makes the same calls in any two
    worlds that differ only in what their writes do. *)
Theorem writeToFile_swallows (w : World) (tr : list event) (path : jsstring)
        (content : jsval) (append : option bool) (err : jsstring) :
  fs_writeFileSync w tr path content (write_flag append) = Some err ->
  writeToFile path content append w tr
  = (Ok tt, tr ++ [WriteFileSync path content (write_flag append);
                   ConsoleError (Plain (lit "Error writing to file: " ++ err))])
  /\ forall args w', same_but_writes w w' ->
       fst (autoTest args w []) = fst (autoTest args w' [])
       /\ calls (snd (autoTest args w [])) = calls (snd (autoTest args w' [])).
Proof.
  intros Hfail. split; [now rewrite writeToFile_run, Hfail|].
  intros args w' (Hread & Hparse & Hapi).
  rewrite !autoTest_run. cbv zeta.
  assert (Hc : input_content w args = input_content w' args)
    by (unfold input_content; now rewrite Hread).
  assert (Hp : preamble w args = preamble w' args)
    by (unfold preamble; now rewrite Hread).
  rewrite <- Hc, <- Hp.
  set (R := fun tr1 tr2 : list event => calls tr1 = calls tr2).
  assert (HR : forall tr1 tr2 key req s,
             R tr1 tr2 ->
             R (tr1 ++ [CreateChatCompletion key req s])
               (tr2 ++ [CreateChatCompletion key req s])).
  { intros tr1 tr2 key req s H. unfold R in *. now rewrite !calls_app, H. }
  assert (Hstream :
            related R
              (streamTestContent (completionRequest_of args (input_content w args))
                 (initOpenAI (arg_apiKey args))
                 (fun token => writeToFile (outputFile args) token (Some true)) w)
              (streamTestContent (completionRequest_of args (input_content w args))
                 (initOpenAI (arg_apiKey args))
                 (fun token => writeToFile (outputFile args) token (Some true)) w')).
  { apply related_streamTestContent; try assumption.
    intros token. apply related_writeToFile. }
  assert (Hfresh :
            related R
              (bind (getTestContent (completionRequest_of args (input_content w args))
                       (initOpenAI (arg_apiKey args)))
                    (fun testContent => writeToFile (outputFile args) testContent None) w)
              (bind (getTestContent (completionRequest_of args (input_content w args))
                       (initOpenAI (arg_apiKey args)))
                    (fun testContent => writeToFile (outputFile args) testContent None) w')).
  { apply related_bind; [now apply related_getTestContent|].
    intros v. apply related_writeToFile. }
  destruct (stream args) as [[|]|];
    [apply Hstream|apply Hfresh|apply Hfresh]; reflexivity.
Qed.

Lemma writeToFile_swallows_witness :
  writeToFile (lit "sum.test.ts") (JStr (lit "test(sum)")) None
    (sample_world (inl (lit "x")) true sample_api) []
  = (Ok tt, [] ++ [WriteFileSync (lit "sum.test.ts") (JStr (lit "test(sum)")) (write_flag None);
                   ConsoleError (Plain (lit "Error writing to file: " ++ lit "EACCES"))])
  /\ forall args w', same_but_writes (sample_world (inl (lit "x")) true sample_api) w' ->
       fst (autoTest args (sample_world (inl (lit "x")) true sample_api) [])
       = fst (autoTest args w' [])
       /\ calls (snd (autoTest args (sample_world (inl (lit "x")) true sample_api) []))
          = calls (snd (autoTest args w' [])).
Proof.
  apply (@writeToFile_swallows (sample_world (inl (lit "x")) true sample_api) []
           (lit "sum.test.ts") (JStr (lit "test(sum)")) None (lit "EACCES")).
  reflexivity.
Defined.

(** Each token handed to a callback that writes it is one write call with
    the flag [a]; handed to the recording callback it is one record. *)
Lemma related_writer_recorder (w : World) (path : jsstring) (token : jsval) :
  related (fun tr1 tr2 =>
             write_calls tr1 = map (fun t => (path, t, lit "a")) (tokens_of tr2))
          (writeToFile path token (Some true) w) (record_token token w).
Proof.
  intros tr1 tr2 H. rewrite writeToFile_run. unfold record_token, emit.
  cbn [fst snd]. split; [reflexivity|].
  rewrite write_calls_app, tokens_of_app, map_app, H. f_equal.
  unfold write_calls. cbn [flat_map].
  now destruct (fs_writeFileSync w tr1 path token (write_flag (Some true))).
Qed.

(** C7.  Without streaming ([stream] false or absent) [autoTest] makes
    exactly one write: the output file, the content that [getTestContent]
    returned, flag [w].  With streaming it makes exactly one write per
    token that [streamTestContent] hands over, in the order of arrival,
    each to the output file with flag [a]. *)
Theorem autoTest_write_flags (w : World) (fresh streaming : IAutoTestArgs)
        (testContent : jsval) :
  stream fresh = None \/ stream fresh = Some false ->
  fst (getTestContent (completionRequest_of fresh (input_content w fresh))
         (initOpenAI (arg_apiKey fresh)) w []) = Ok testContent ->
  stream streaming = Some true ->
  write_calls (snd (autoTest fresh w [])) = [(outputFile fresh, testContent, lit "w")]
  /\ write_calls (snd (autoTest streaming w []))
     = map (fun token => (outputFile streaming, token, lit "a"))
           (received_tokens w (completionRequest_of streaming (input_content w streaming))
              (initOpenAI (arg_apiKey streaming))).
Proof.
  intros Hfresh Hcontent Hstream. split.
  - rewrite autoTest_run. cbv zeta.
    assert (E : (testContent0 <-
                   getTestContent (completionRequest_of fresh (input_content w fresh))
                     (initOpenAI (arg_apiKey fresh)) ;;
                 writeToFile (outputFile fresh) testContent0 None) w ([] ++ preamble w fresh)
                = writeToFile (outputFile fresh) testContent None w
                    (preamble w fresh
                       ++ [CreateChatCompletion (arg_apiKey fresh)
                             (completionRequest_of fresh (input_content w fresh)) false])).
    { unfold bind. rewrite getTestContent_run in *. cbn [fst] in Hcontent.
      now rewrite Hcontent. }
    destruct Hfresh as [-> | ->]; rewrite E, writeToFile_run; cbn [snd];
      rewrite !write_calls_app, write_calls_preamble;
      unfold write_calls; cbn [flat_map app];
      match goal with |- context [fs_writeFileSync ?a ?b ?c ?d ?e] =>
        destruct (fs_writeFileSync a b c d e) end; reflexivity.
  - rewrite autoTest_run, Hstream. cbv zeta. unfold received_tokens.
    apply (@related_streamTestContent
             (fun tr1 tr2 =>
                write_calls tr1
                = map (fun t => (outputFile streaming, t, lit "a")) (tokens_of tr2))
             w w (fun _ => eq_refl) (fun _ _ _ => eq_refl)).
    + intros tr1 tr2 key req s H.
      now rewrite write_calls_app, tokens_of_app, map_app, H.
    + intros token. apply related_writer_recorder.
    + cbn [app]. apply write_calls_preamble.
Qed.

Lemma autoTest_write_flags_witness :
  let w := sample_world (inl (lit "x")) false sample_api in
  write_calls (snd (autoTest (sample_args None) w []))
  = [(outputFile (sample_args None),
      JStr ([LF] ++ lit "test(sum)" ++ [LF]), lit "w")]
  /\ write_calls (snd (autoTest (sample_args (Some true)) w []))
     = map (fun token => (outputFile (sample_args (Some true)), token, lit "a"))
           (received_tokens w
              (completionRequest_of (sample_args (Some true))
                 (input_content w (sample_args (Some true))))
              (initOpenAI (arg_apiKey (sample_args (Some true))))).
Proof.
  apply (@autoTest_write_flags (sample_world (inl (lit "x")) false sample_api)
           (sample_args None) (sample_args (Some true))
           (JStr ([LF] ++ lit "test(sum)" ++ [LF])));
    [left; reflexivity | reflexivity | reflexivity].
Defined.

Example autoTest_streams_three_writes :
  write_calls
    (snd (autoTest (sample_args (Some true))
            (sample_world (inl (lit "x")) true sample_api) []))
  = [(lit "sum.test.ts", JStr (lit "a"), lit "a");
     (lit "sum.test.ts", JStr (lit "b"), lit "a");
     (lit "sum.test.ts", JStr (lit "c"), lit "a")].
Proof. vm_compute. reflexivity. Qed.

(** ** A read that fails *)

(** When the read throws, [readFile] has already caught the error, so the
    handler in [autoTest] does not run: the run goes on with the empty
    string for a content. *)
Lemma autoTest_read_failure_continues (w : World) (args : IAutoTestArgs)
      (err : jsstring) (tr : list event) :
  fs_readFileSync w (inputFile args) = inr err ->
  autoTest args w tr
  = let req := completionRequest_of args [] in
    let openai := initOpenAI (arg_apiKey args) in
    let tr' :=
      tr ++ [ConsoleLog (Blue (lit "Reading input file..."));
             ReadFileSync (inputFile args);
             ConsoleError (Plain (lit "Error reading file: " ++ err));
             ConsoleLog (Blue (lit "Generating tests..."))] in
    match stream args with
    | Some true =>
        streamTestContent req openai
          (fun token => writeToFile (outputFile args) token (Some true)) w tr'
    | _ =>
        (testContent <- getTestContent req openai ;;
         writeToFile (outputFile args) testContent None) w tr'
    end.
Proof.
  intros H. rewrite autoTest_run. unfold input_content, preamble. now rewrite H.
Qed.

(** No helper ever calls [process.exit], and the one call in [autoTest]
    sits in a handler that never runs. *)
Section NeverExits.

Variable w : World.

Lemma never_exits_ret {A} (a : A) : never_exits (ret a w).
Proof. intros tr c. discriminate. Qed.

Lemma never_exits_throw {A} (err : jsstring) : never_exits (@throw A err w).
Proof. intros tr c. discriminate. Qed.

Lemma never_exits_eval {A} (e : option A) : never_exits (eval e w).
Proof. destruct e; [apply never_exits_ret|apply never_exits_throw]. Qed.

Lemma never_exits_bind {A B} (m : M A) (k : A -> M B) :
  never_exits (m w) -> (forall a, never_exits (k a w)) -> never_exits (bind m k w).
Proof.
  intros Hm Hk tr c. unfold bind. specialize (Hm tr).
  destruct (m w tr) as [[a|err|c'] tr']; [apply Hk|discriminate|].
  now elim (Hm c').
Qed.

Lemma never_exits_parse (text : jsstring) : never_exits (parse text w).
Proof. intros tr c. unfold parse. destruct (JSON_parse w text); discriminate. Qed.

Lemma never_exits_createChatCompletion (openai : OpenAIApi) (req : ICompletionRequest)
      (s : bool) :
  never_exits (createChatCompletion openai req s w).
Proof.
  intros tr c. unfold createChatCompletion.
  destruct (openai_createChatCompletion w (apiKey openai) req s); discriminate.
Qed.

Lemma never_exits_writeToFile (path : jsstring) (content : jsval) (append : option bool) :
  never_exits (writeToFile path content append w).
Proof. intros tr c. rewrite writeToFile_run. discriminate. Qed.

Lemma never_exits_getTestContent (req : ICompletionRequest) (openai : OpenAIApi) :
  never_exits (getTestContent req openai w).
Proof.
  apply never_exits_bind; [apply never_exits_createChatCompletion|].
  intros response. apply never_exits_eval.
Qed.

Variable onToken : jsval -> M unit.
Hypothesis never_exits_onToken : forall token, never_exits (onToken token w).

Lemma never_exits_for_lines (lines : list jsstring) :
  never_exits (for_lines onToken lines w).
Proof.
  induction lines as [|line rest IH]; [apply never_exits_ret|].
  cbn [for_lines].
  destruct (eqb_str (replace_data_prefix line) DONE); [apply never_exits_ret|].
  apply never_exits_bind; [apply never_exits_parse|]. intros json.
  apply never_exits_bind; [apply never_exits_eval|]. intros token.
  apply never_exits_bind; [|intros _; exact IH].
  destruct (truthy token); [apply never_exits_onToken|apply never_exits_ret].
Qed.

Lemma never_exits_for_chunks (chunks : list jsstring) :
  never_exits (for_chunks onToken chunks w).
Proof.
  induction chunks as [|chunk rest IH]; [apply never_exits_ret|].
  cbn [for_chunks]. apply never_exits_bind; [apply never_exits_for_lines|].
  intros [|]; [exact IH|apply never_exits_ret].
Qed.

Lemma never_exits_streamTestContent (req : ICompletionRequest) (openai : OpenAIApi) :
  never_exits (streamTestContent req openai onToken w).
Proof.
  apply never_exits_bind; [apply never_exits_createChatCompletion|].
  intros [data|chunks]; [apply never_exits_throw|apply never_exits_for_chunks].
Qed.

End NeverExits.

(** X9.  [autoTest] never ends the process: in no world, for no
    arguments and from no trace does a run end in [process.exit]; every
    run returns or throws. *)
Lemma autoTest_never_exits (args : IAutoTestArgs) (w : World) :
  never_exits (autoTest args w).
Proof.
  intros tr c. rewrite autoTest_run. cbv zeta.
  destruct (stream args) as [[|]|].
  - apply never_exits_streamTestContent. intros token. apply never_exits_writeToFile.
  - apply never_exits_bind; [apply never_exits_getTestContent|].
    intros v. apply never_exits_writeToFile.
  - apply never_exits_bind; [apply never_exits_getTestContent|].
    intros v. apply never_exits_writeToFile.
Qed.

(** C1 at a failing input.  The input file cannot be read; [autoTest]
    does not exit: it returns normally after building the prompt for an
    empty content, calling the API with it and writing the output file. *)
Lemma autoTest_survives_failed_read :
  let w := sample_world (inr (lit "ENOENT")) false sample_api in
  let args := sample_args None in
  fst (autoTest args w []) = Ok tt
  /\ calls (snd (autoTest args w []))
     = [ReadFileSync (lit "sum.ts");
        CreateChatCompletion (lit "key")
          (getCompletionRequest gpt_4
             (getPrompt {| content := []; fileName := lit "sum.ts";
                           techs := None; tips := None |}) [])
          false;
        WriteFileSync (lit "sum.test.ts") (JStr ([LF] ++ lit "test(sum)" ++ [LF])) (lit "w")].
Proof. split; vm_compute; reflexivity. Qed.

(** ** Streaming *)

Lemma data_line_trimmed (chunk line : jsstring) :
  In line (data_lines chunk) -> startsWith (trim line) DATA_PREFIX = true.
Proof. unfold data_lines. intros H. now apply filter_In in H. Qed.

(** Among the data lines the terminator is the one line [data: [DONE]]. *)
Lemma terminator_is_DONE_LINE (line : jsstring) :
  startsWith (trim line) DATA_PREFIX = true ->
  eqb_str (replace_data_prefix line) DONE = true <-> line = DONE_LINE.
Proof.
  intros Hdata. split.
  - unfold replace_data_prefix. destruct (startsWith line DATA_PREFIX) eqn:E.
    + apply startsWith_inv in E as [rest ->]. rewrite skipn_app, skipn_all, Nat.sub_diag.
      cbn [skipn app]. intros H. apply eqb_str_eq in H. now subst rest.
    + intros H. apply eqb_str_eq in H. subst line. vm_compute in Hdata. discriminate.
  - intros ->. reflexivity.
Qed.

Lemma for_each_app {A} (f : A -> M unit) (xs ys : list A) (w : World) (tr : list event) :
  for_each f (xs ++ ys) w tr = bind (for_each f xs) (fun _ => for_each f ys) w tr.
Proof.
  revert tr; induction xs as [|x xs IH]; intros tr; [reflexivity|].
  cbn [app for_each]. unfold bind.
  destruct (f x w tr) as [[[]| |] tr']; [|reflexivity|reflexivity].
  rewrite IH. reflexivity.
Qed.

Lemma for_each_record (tokens : list jsval) (w : World) (tr : list event) :
  for_each record_token tokens w tr = (Ok tt, tr ++ map Token tokens).
Proof.
  revert tr; induction tokens as [|t ts IH]; intros tr.
  - cbn. now rewrite app_nil_r.
  - cbn [for_each map]. unfold bind, record_token, emit. rewrite IH.
    now rewrite <- app_assoc.
Qed.

(** Over clean lines the inner loop hands their tokens to the callback
    and goes on with the lines that follow. *)
Lemma for_lines_clean (onToken : jsval -> M unit) (w : World)
      (before rest : list jsstring) (tr : list event) :
  Forall (clean w) before ->
  for_lines onToken (before ++ rest) w tr
  = bind (for_each onToken (delta_tokens w before))
         (fun _ => for_lines onToken rest) w tr.
Proof.
  intros H; revert tr; induction H as [|line before [Hnd Htok] _ IH]; intros tr;
    [reflexivity|].
  cbn [app for_lines]. rewrite Hnd.
  unfold delta_tokens. cbn [flat_map]. fold (delta_tokens w before).
  unfold line_token in *.
  unfold bind, parse.
  destruct (JSON_parse w (replace_data_prefix line)) as [json|]; [|now elim Htok].
  cbn [option_bind] in *.
  destruct (delta_content json) as [token|]; [|now elim Htok].
  cbn [eval]. unfold ret at 1.
  destruct (truthy token).
  - cbn [app for_each]. unfold bind.
    destruct (onToken token w tr) as [[[]| |] tr']; [|reflexivity|reflexivity].
    rewrite IH. reflexivity.
  - cbn [app]. unfold ret at 1. rewrite IH. reflexivity.
Qed.

Lemma delta_tokens_app (w : World) (xs ys : list jsstring) :
  delta_tokens w (xs ++ ys) = delta_tokens w xs ++ delta_tokens w ys.
Proof. apply flat_map_app. Qed.

Lemma for_lines_all_clean (onToken : jsval -> M unit) (w : World)
      (lines : list jsstring) (tr : list event) :
  Forall (clean w) lines ->
  for_lines onToken lines w tr
  = bind (for_each onToken (delta_tokens w lines)) (fun _ => ret Normal) w tr.
Proof.
  intros H. rewrite <- (app_nil_r lines) at 1. now rewrite for_lines_clean.
Qed.

(** The outer loop: clean lines up to a terminator. *)
Lemma for_chunks_until_DONE (onToken : jsval -> M unit) (w : World)
      (chunks : list jsstring) :
  forall before after tr,
    flat_map data_lines chunks = before ++ DONE_LINE :: after ->
    Forall (clean w) before ->
    for_chunks onToken chunks w tr = for_each onToken (delta_tokens w before) w tr.
Proof.
  induction chunks as [|chunk rest IH]; intros before after tr Hlines Hclean.
  - destruct before; discriminate.
  - cbn [flat_map] in Hlines. cbn [for_chunks].
    apply app_eq_app in Hlines as [l [[H1 H2]|[H1 H2]]].
    + destruct l as [|x l].
      * rewrite app_nil_r in H1. cbn [app] in H2.
        unfold bind. rewrite H1, for_lines_all_clean by assumption.
        unfold bind, ret.
        destruct (for_each onToken (delta_tokens w before) w tr) as [[[]| |] tr'];
          [|reflexivity|reflexivity].
        now rewrite (IH [] after tr') by (auto using Forall_nil).
      * injection H2 as <- ->.
        unfold bind. rewrite H1, for_lines_clean by assumption.
        unfold bind. cbn [for_lines].
        change (eqb_str (replace_data_prefix DONE_LINE) DONE) with true.
        unfold ret.
        now destruct (for_each onToken (delta_tokens w before) w tr) as [[[]| |] tr'].
    + subst before. apply Forall_app in Hclean as [Hc1 Hc2].
      rewrite delta_tokens_app, for_each_app.
      unfold bind. rewrite for_lines_all_clean by assumption.
      unfold bind, ret.
      destruct (for_each onToken (delta_tokens w (data_lines chunk)) w tr)
        as [[[]| |] tr']; [|reflexivity|reflexivity].
      now apply IH with (after := after).
Qed.

Lemma data_lines_of_chunks (chunks : list jsstring) (line : jsstring) :
  In line (flat_map data_lines chunks) -> startsWith (trim line) DATA_PREFIX = true.
Proof.
  intros H. apply in_flat_map in H as (chunk & _ & H). eapply data_line_trimmed, H.
Qed.

(** C3, as the code has it.  When the data lines of the stream contain
    the terminator and every data line before the first terminator is
    JSON with a readable [choices[0].delta], [streamTestContent] returns
    normally at the terminator: the callback has been given the non-empty
    delta tokens of the lines before the terminator, in order, and
    nothing of the terminator or of what follows it. *)
Theorem streamTestContent_stops_at_DONE (w : World) (req : ICompletionRequest)
        (openai : OpenAIApi) (chunks before after : list jsstring) (tr : list event) :
  openai_createChatCompletion w (apiKey openai) req true = inl (DataStream chunks) ->
  flat_map data_lines chunks = before ++ DONE_LINE :: after ->
  ~ In DONE_LINE before ->
  Forall (fun line => line_token w line <> None) before ->
  streamTestContent req openai record_token w tr
  = (Ok tt, tr ++ CreateChatCompletion (apiKey openai) req true
               :: map Token (delta_tokens w before)).
Proof.
  intros Hapi Hlines Hfirst Hjson.
  assert (Hclean : Forall (clean w) before).
  { apply Forall_forall. intros line Hin. split.
    - destruct (eqb_str (replace_data_prefix line) DONE) eqn:E; [|reflexivity].
      apply terminator_is_DONE_LINE in E; [subst line; contradiction|].
      apply data_lines_of_chunks with (chunks := chunks).
      rewrite Hlines. apply in_or_app. now left.
    - revert line Hin. now apply Forall_forall. }
  unfold streamTestContent, bind, createChatCompletion. rewrite Hapi.
  rewrite for_chunks_until_DONE with (before := before) (after := after) by assumption.
  rewrite for_each_record. now rewrite <- app_assoc.
Qed.

Lemma streamTestContent_stops_at_DONE_witness :
  let w := sample_world (inl []) false sample_api in
  let before := [DATA_PREFIX ++ delta_text "a";
                 DATA_PREFIX ++ delta_text "b";
                 DATA_PREFIX ++ delta_text "c"] in
  streamTestContent sample_request sample_openai record_token w []
  = (Ok tt, [] ++ CreateChatCompletion (apiKey sample_openai) sample_request true
               :: map Token (delta_tokens w before)).
Proof.
  apply (@streamTestContent_stops_at_DONE
           (sample_world (inl []) false sample_api) sample_request sample_openai
           sample_chunks
           [DATA_PREFIX ++ delta_text "a";
            DATA_PREFIX ++ delta_text "b";
            DATA_PREFIX ++ delta_text "c"]
           [DATA_PREFIX ++ delta_text "a"] []).
  - reflexivity.
  - vm_compute. reflexivity.
  - intros [E|[E|[E|[]]]]; vm_compute in E; discriminate.
  - repeat constructor; vm_compute; discriminate.
Defined.

(** C3, as the specification has it, fails.  A chunk boundary cuts the
    second event of the stream: the first chunk ends with a data line
    that is not JSON, [JSON.parse] throws, and the run ends there with a
    SyntaxError.  The token [c], in a line before the terminator, is
    never handed over, and the run does not return at the terminator. *)
Lemma streamTestContent_cut_chunk_throws :
  let w := sample_world (inl []) false sample_cut_api in
  streamTestContent sample_request sample_openai record_token w []
  = (Throw SyntaxError,
     [CreateChatCompletion (apiKey sample_openai) sample_request true;
      Token (JStr (lit "a"))])
  /\ flat_map data_lines sample_cut_chunks
     = [DATA_PREFIX ++ delta_text "a";
        DATA_PREFIX ++ firstn 20 (delta_text "b");
        DATA_PREFIX ++ delta_text "c";
        DONE_LINE]
  /\ ~ stops_at_terminator w sample_request sample_openai sample_cut_chunks.
Proof.
  split; [vm_compute; reflexivity|]. split; [vm_compute; reflexivity|].
  intros H.
  specialize (H [DATA_PREFIX ++ delta_text "a";
                 DATA_PREFIX ++ firstn 20 (delta_text "b");
                 DATA_PREFIX ++ delta_text "c"] []).
  assert (Hrun : streamTestContent sample_request sample_openai record_token
                   (sample_world (inl []) false sample_cut_api) []
                 = (Ok tt, CreateChatCompletion (apiKey sample_openai) sample_request true
                             :: map Token
                                  (delta_tokens (sample_world (inl []) false sample_cut_api)
                                     [DATA_PREFIX ++ delta_text "a";
                                      DATA_PREFIX ++ firstn 20 (delta_text "b");
                                      DATA_PREFIX ++ delta_text "c"]))).
  { apply H; [reflexivity|vm_compute; reflexivity|].
    intros [E|[E|[E|[]]]]; vm_compute in E; discriminate. }
  vm_compute in Hrun. discriminate.
Qed.

Lemma getTestContent_strips_fences_witness :
  let content := FENCE ++ lit "ts" ++ [LF] ++ lit "test(sum)" ++ [LF] ++ FENCE in
  exists result,
    fst (getTestContent sample_request sample_openai
           (sample_world (inl []) false sample_api) []) = Ok (JStr result)
    /\ regex_lines result = map blank_fence (regex_lines content)
    /\ Forall (fun line => startsWith line FENCE = false) (regex_lines result)
    /\ (forall i line, nth_error (regex_lines content) i = Some line ->
          startsWith line FENCE = false ->
          nth_error (regex_lines result) i = Some line)
    /\ filter is_line_terminator result = filter is_line_terminator content.
Proof.
  apply (@getTestContent_strips_fences (sample_world (inl []) false sample_api) []
           sample_request sample_openai sample_response
           (FENCE ++ lit "ts" ++ [LF] ++ lit "test(sum)" ++ [LF] ++ FENCE));
    reflexivity.
Defined.

(** * Further properties of the code *)

(** ** File types and YAML files *)

(** X1.  [getFileType] never throws and never exits.  When [lstatSync]
    throws (the path does not exist, say) it logs the error and answers
    [File], which is also its answer for a regular file; it answers
    [Directory] only when the call succeeds on a directory. *)
Theorem getFileType_failure_is_file (fs_lstatSync : jsstring -> bool + jsstring)
        (w : World) (tr : list event) (path : jsstring) :
  (exists t, fst (getFileType fs_lstatSync path w tr) = Ok t)
  /\ (forall err, fs_lstatSync path = inr err ->
        getFileType fs_lstatSync path w tr
        = (Ok File,
           tr ++ [ConsoleError (Plain (lit "Error getting file type: " ++ err))]))
  /\ (fs_lstatSync path = inl false -> getFileType fs_lstatSync path w tr = (Ok File, tr))
  /\ (fst (getFileType fs_lstatSync path w tr) = Ok Directory
      <-> fs_lstatSync path = inl true).
Proof.
  unfold getFileType, try_catch, bind, lstatSync_isDirectory, console_error, emit, ret.
  destruct (fs_lstatSync path) as [[|]|err]; cbn [fst].
  - repeat split; try discriminate; try reflexivity. now exists Directory.
  - repeat split; try discriminate; try reflexivity. now exists File.
  - repeat split; try discriminate.
    + now exists File.
    + now intros err' [= ->].
Qed.

(** X2.  [readYamlFile] does not see a failed read: [readFile] has
    logged it and returned the empty string, so the parser is run on the
    empty text, and the result (a value or the parser's own error) is
    what an empty file gives. *)
Theorem readYamlFile_failed_read_parses_empty (Y : Type) (parse : jsstring -> Y + jsstring)
        (w w' : World) (tr : list event) (path err : jsstring) :
  fs_readFileSync w path = inr err ->
  fs_readFileSync w' path = inl [] ->
  readYamlFile parse path w tr
  = (match parse [] with inl value => Ok value | inr e => Throw e end,
     tr ++ [ReadFileSync path;
            ConsoleError (Plain (lit "Error reading file: " ++ err))])
  /\ fst (readYamlFile parse path w tr) = fst (readYamlFile parse path w' tr).
Proof.
  intros Hfail Hempty. unfold readYamlFile, bind, yaml_parse.
  rewrite !readFile_run, Hfail, Hempty. destruct (parse []); now split.
Qed.

Lemma readYamlFile_failed_read_parses_empty_witness :
  readYamlFile sample_yaml_parse (lit "testgpt.yaml")
    (sample_world (inr (lit "ENOENT")) false sample_api) []
  = (match sample_yaml_parse [] with inl value => Ok value | inr e => Throw e end,
     [] ++ [ReadFileSync (lit "testgpt.yaml");
            ConsoleError (Plain (lit "Error reading file: " ++ lit "ENOENT"))])
  /\ fst (readYamlFile sample_yaml_parse (lit "testgpt.yaml")
            (sample_world (inr (lit "ENOENT")) false sample_api) [])
     = fst (readYamlFile sample_yaml_parse (lit "testgpt.yaml")
              (sample_world (inl []) false sample_api) []).
Proof.
  apply (@readYamlFile_failed_read_parses_empty jsval sample_yaml_parse
           (sample_world (inr (lit "ENOENT")) false sample_api)
           (sample_world (inl []) false sample_api)
           [] (lit "testgpt.yaml") (lit "ENOENT"));
    reflexivity.
Defined.

Example getFileType_samples :
  fst (getFileType sample_lstatSync (lit "src") (sample_world (inl []) false sample_api) [])
  = Ok Directory
  /\ fst (getFileType sample_lstatSync (lit "missing")
            (sample_world (inl []) false sample_api) [])
     = Ok File.
Proof. split; reflexivity. Qed.

(** ** Prompts *)

(** X3.  An empty list of technologies or of tips is treated like an
    absent one: the prompt has no section for it. *)
Theorem getPrompt_empty_list_is_absent (args : iGetPromptArgs) :
  getPrompt {| content := content args; fileName := fileName args;
               techs := Some []; tips := tips args |}
  = getPrompt {| content := content args; fileName := fileName args;
                 techs := None; tips := tips args |}
  /\ getPrompt {| content := content args; fileName := fileName args;
                  techs := techs args; tips := Some [] |}
     = getPrompt {| content := content args; fileName := fileName args;
                    techs := techs args; tips := None |}
  /\ getPrompt {| content := content args; fileName := fileName args;
                  techs := Some []; tips := Some [] |}
     = lit "I need unit tests for a file called " ++ fileName args ++ ANSWER_ONLY
       ++ lit "Here is the file content: " ++ [LF]
       ++ lit "    " ++ FENCE ++ [LF]
       ++ lit "    " ++ content args ++ [LF]
       ++ lit "    " ++ FENCE ++ [LF]
       ++ lit "  ".
Proof.
  repeat split. unfold getPrompt. cbn [has_length techs tips fileName content].
  now rewrite <- !app_assoc.
Qed.

(** ** Stripping the fences, again *)

Lemma replace_fence_free_states (s : jsstring) :
  (Forall (fun line => startsWith line FENCE = false) (regex_lines s) ->
   replace_fence_lines AtLineStart s = s)
  /\ (Forall (fun line => startsWith line FENCE = false) (tl (regex_lines s)) ->
      replace_fence_lines InLine s = s).
Proof.
  induction s as [|c s [IHstart IHline]]; [now split|].
  assert (Hfirst : startsWith (c :: s) FENCE
                   = startsWith (hd [] (regex_lines (c :: s))) FENCE)
    by (apply startsWith_first_line, fence_has_no_terminator).
  rewrite regex_lines_cons in *. cbn [replace_fence_lines]. unfold after.
  destruct (is_line_terminator c) eqn:Hc; cbn [hd tl] in *.
  - assert (Hs : startsWith (c :: s) FENCE = false).
    { destruct (startsWith (c :: s) FENCE) eqn:E; [|reflexivity].
      apply fence_starts_line in E. congruence. }
    rewrite Hs. split; intros H.
    + apply Forall_inv_tail in H. now rewrite IHstart.
    + now rewrite IHstart.
  - split; intros H.
    + rewrite Hfirst, (Forall_inv H). apply Forall_inv_tail in H. now rewrite IHline.
    + now rewrite IHline.
Qed.

(** X4.  A content is left unchanged by the replacement exactly when
    none of its lines starts with three backticks. *)
Theorem replace_fence_lines_unchanged_iff (content : jsstring) :
  replace_fence_lines AtLineStart content = content
  <-> Forall (fun line => startsWith line FENCE = false) (regex_lines content).
Proof.
  split; [|apply replace_fence_free_states].
  intros H. destruct (replace_fence_lines_lines content) as [Hlines _].
  rewrite H in Hlines. apply Forall_forall. intros line Hin.
  destruct (startsWith line FENCE) eqn:E; [|reflexivity].
  assert (Hfix : forall ls : list jsstring,
             ls = map blank_fence ls -> In line ls -> line = blank_fence line).
  { induction ls as [|l ls IH]; [contradiction|].
    cbn [map]. intros [= H1 H2] [->|Hl]; [exact H1|now apply IH]. }
  specialize (Hfix _ Hlines Hin). unfold blank_fence in Hfix. rewrite E in Hfix.
  subst line. discriminate.
Qed.

(** X5.  Stripping is idempotent: a stripped text has no fence line
    left, so stripping it again changes nothing. *)
Theorem replace_fence_lines_idempotent (content : jsstring) :
  replace_fence_lines AtLineStart (replace_fence_lines AtLineStart content)
  = replace_fence_lines AtLineStart content.
Proof.
  apply replace_fence_free_states.
  destruct (replace_fence_lines_lines content) as [-> _].
  apply Forall_forall. intros l Hl.
  apply in_map_iff in Hl as (l0 & <- & _). apply blank_fence_not_fence.
Qed.

(** ** Streaming, again *)

Lemma for_lines_app (onToken : jsval -> M unit) (w : World)
      (a b : list jsstring) (tr : list event) :
  for_lines onToken (a ++ b) w tr
  = bind (for_lines onToken a)
         (fun c => match c with
                   | Return => ret Return
                   | Normal => for_lines onToken b
                   end) w tr.
Proof.
  revert tr; induction a as [|line a IH]; intros tr; [reflexivity|].
  cbn [app for_lines].
  destruct (eqb_str (replace_data_prefix line) DONE); [reflexivity|].
  unfold bind, parse.
  destruct (JSON_parse w (replace_data_prefix line)) as [json|]; [|reflexivity].
  destruct (delta_content json) as [token|]; cbn [eval]; [|reflexivity].
  unfold ret at 1 3.
  destruct (truthy token).
  - destruct (onToken token w tr) as [[[]| |] tr']; [|reflexivity|reflexivity].
    rewrite IH. reflexivity.
  - unfold ret at 1 2. rewrite IH. reflexivity.
Qed.

(** The two nested loops are one loop over the data lines of all the
    chunks. *)
Lemma for_chunks_by_lines (onToken : jsval -> M unit) (w : World)
      (chunks : list jsstring) (tr : list event) :
  for_chunks onToken chunks w tr
  = bind (for_lines onToken (flat_map data_lines chunks)) (fun _ => ret tt) w tr.
Proof.
  revert tr; induction chunks as [|chunk rest IH]; intros tr; [reflexivity|].
  cbn [for_chunks flat_map]. unfold bind. rewrite for_lines_app. unfold bind.
  destruct (for_lines onToken (data_lines chunk) w tr) as [[[|]| |] tr'];
    try reflexivity.
  rewrite IH. reflexivity.
Qed.

Lemma split_at_separator (sep : N) (a b : jsstring) :
  split sep (a ++ sep :: b) = split sep a ++ split sep b.
Proof.
  unfold split. induction a as [|x a IH]; cbn [app split_at].
  - now rewrite N.eqb_refl.
  - destruct (x =? sep)%N; [now rewrite IH|].
    rewrite IH. destruct (split_at (fun c => (c =? sep)%N) a) eqn:E; [|reflexivity].
    now apply split_at_not_nil in E.
Qed.

Lemma data_lines_at_newline (a b : jsstring) :
  data_lines (a ++ LF :: b) = data_lines a ++ data_lines b.
Proof. unfold data_lines. now rewrite split_at_separator, filter_app. Qed.

(** X6.  A chunk boundary that falls right after a newline is
    harmless: the loops behave on two chunks cut there as on the one
    chunk that holds both, whatever the callback does. *)
Theorem for_chunks_boundary_after_newline (onToken : jsval -> M unit) (w : World)
        (tr : list event) (earlier later : list jsstring) (c1 c2 : jsstring) :
  for_chunks onToken (earlier ++ (c1 ++ [LF]) :: c2 :: later) w tr
  = for_chunks onToken (earlier ++ (c1 ++ LF :: c2) :: later) w tr.
Proof.
  rewrite !for_chunks_by_lines, !flat_map_app. cbn [flat_map].
  rewrite !data_lines_at_newline. change (data_lines []) with (@nil jsstring).
  now rewrite app_nil_r, <- app_assoc.
Qed.

Lemma clean_data_lines (w : World) (chunks lines : list jsstring) :
  (forall line, In line lines -> In line (flat_map data_lines chunks)) ->
  ~ In DONE_LINE lines ->
  Forall (fun line => line_token w line <> None) lines ->
  Forall (clean w) lines.
Proof.
  intros Hsub Hdone Htok. apply Forall_forall. intros line Hin. split.
  - destruct (eqb_str (replace_data_prefix line) DONE) eqn:E; [|reflexivity].
    apply terminator_is_DONE_LINE in E; [subst line; contradiction|].
    apply data_lines_of_chunks with (chunks := chunks). now apply Hsub.
  - revert line Hin. now apply Forall_forall.
Qed.

(** X7.  A stream that ends without a terminator, all of whose data
    lines are JSON with a readable [choices[0].delta]: [streamTestContent]
    returns normally at the end of the stream, having handed over the
    non-empty delta tokens of all the data lines, in order. *)
Theorem streamTestContent_without_terminator (w : World) (req : ICompletionRequest)
        (openai : OpenAIApi) (chunks : list jsstring) (tr : list event) :
  openai_createChatCompletion w (apiKey openai) req true = inl (DataStream chunks) ->
  ~ In DONE_LINE (flat_map data_lines chunks) ->
  Forall (fun line => line_token w line <> None) (flat_map data_lines chunks) ->
  streamTestContent req openai record_token w tr
  = (Ok tt, tr ++ CreateChatCompletion (apiKey openai) req true
               :: map Token (delta_tokens w (flat_map data_lines chunks))).
Proof.
  intros Hapi Hdone Hjson.
  assert (Hclean : Forall (clean w) (flat_map data_lines chunks))
    by (apply clean_data_lines with (chunks := chunks); auto).
  unfold streamTestContent, bind, createChatCompletion. rewrite Hapi.
  rewrite for_chunks_by_lines. unfold bind.
  rewrite for_lines_all_clean by assumption. unfold bind.
  rewrite for_each_record. unfold ret. now rewrite <- app_assoc.
Qed.

Lemma streamTestContent_without_terminator_witness :
  let w := sample_world (inl []) false sample_open_api in
  streamTestContent sample_request sample_openai record_token w []
  = (Ok tt, [] ++ CreateChatCompletion (apiKey sample_openai) sample_request true
               :: map Token (delta_tokens w (flat_map data_lines sample_open_chunks))).
Proof.
  apply (@streamTestContent_without_terminator
           (sample_world (inl []) false sample_open_api) sample_request sample_openai
           sample_open_chunks []).
  - reflexivity.
  - intros H. vm_compute in H. destruct H as [E|[E|[]]]; discriminate.
  - vm_compute. repeat constructor; discriminate.
Defined.

(** The run of the recording callback up to the first bad line. *)
Lemma stream_run_to_bad_line (w : World) (req : ICompletionRequest)
        (openai : OpenAIApi) (chunks before after : list jsstring) (bad : jsstring)
        (tr : list event) :
  openai_createChatCompletion w (apiKey openai) req true = inl (DataStream chunks) ->
  flat_map data_lines chunks = before ++ bad :: after ->
  ~ In DONE_LINE (before ++ [bad]) ->
  Forall (fun line => line_token w line <> None) before ->
  line_token w bad = None ->
  streamTestContent req openai record_token w tr
  = (Throw (match JSON_parse w (replace_data_prefix bad) with
            | None => SyntaxError
            | Some _ => TypeError
            end),
     tr ++ CreateChatCompletion (apiKey openai) req true
        :: map Token (delta_tokens w before)).
Proof.
  intros Hapi Hlines Hdone Hjson Hbad.
  assert (Hsub : forall line, In line (before ++ [bad]) ->
                              In line (flat_map data_lines chunks)).
  { intros line Hin. rewrite Hlines. apply in_app_or in Hin as [H|[->|[]]].
    - apply in_or_app. now left.
    - apply in_or_app. right. now left. }
  assert (Hclean : Forall (clean w) before).
  { apply clean_data_lines with (chunks := chunks); auto.
    - intros line Hin. apply Hsub, in_or_app. now left.
    - intros Hin. apply Hdone, in_or_app. now left. }
  assert (Hnot : eqb_str (replace_data_prefix bad) DONE = false).
  { destruct (eqb_str (replace_data_prefix bad) DONE) eqn:E; [|reflexivity].
    apply terminator_is_DONE_LINE in E.
    - subst bad. elim Hdone. apply in_or_app. right. now left.
    - apply data_lines_of_chunks with (chunks := chunks).
      apply Hsub, in_or_app. right. now left. }
  unfold streamTestContent, bind, createChatCompletion. rewrite Hapi.
  rewrite for_chunks_by_lines, Hlines. unfold bind.
  rewrite for_lines_clean by assumption. unfold bind.
  rewrite for_each_record. cbn [for_lines]. rewrite Hnot.
  unfold bind, parse. unfold line_token in Hbad.
  rewrite <- app_assoc.
  destruct (JSON_parse w (replace_data_prefix bad)) as [json|]; [|reflexivity].
  cbn [option_bind] in Hbad. now rewrite Hbad.
Qed.

(** X8.  The first data line that is neither the terminator nor JSON
    with a readable [choices[0].delta] ends the run with an exception: a
    SyntaxError when [JSON.parse] rejects it, a TypeError when the parsed
    value has no [choices[0].delta].  The tokens of the lines before it
    have been handed over, nothing after it is looked at.  A terminator
    followed by a carriage return is such a line. *)
Theorem streamTestContent_throws_at_first_bad_line (w : World) (req : ICompletionRequest)
        (openai : OpenAIApi) (chunks before after : list jsstring) (bad : jsstring)
        (tr : list event) :
  openai_createChatCompletion w (apiKey openai) req true = inl (DataStream chunks) ->
  flat_map data_lines chunks = before ++ bad :: after ->
  ~ In DONE_LINE (before ++ [bad]) ->
  Forall (fun line => line_token w line <> None) before ->
  line_token w bad = None ->
  streamTestContent req openai record_token w tr
  = (Throw (match JSON_parse w (replace_data_prefix bad) with
            | None => SyntaxError
            | Some _ => TypeError
            end),
     tr ++ CreateChatCompletion (apiKey openai) req true
        :: map Token (delta_tokens w before)).
Proof.
  intros Hapi Hlines Hdone Hjson Hbad.
  now apply stream_run_to_bad_line with (chunks := chunks) (after := after).
Qed.

Lemma streamTestContent_throws_at_first_bad_line_witness :
  let w := sample_world (inl []) false sample_crlf_api in
  streamTestContent sample_request sample_openai record_token w []
  = (Throw (match JSON_parse w (replace_data_prefix (DONE_LINE ++ [CR])) with
            | None => SyntaxError
            | Some _ => TypeError
            end),
     [] ++ CreateChatCompletion (apiKey sample_openai) sample_request true
        :: map Token (delta_tokens w [DATA_PREFIX ++ delta_text "a"])).
Proof.
  apply (@streamTestContent_throws_at_first_bad_line
           (sample_world (inl []) false sample_crlf_api) sample_request sample_openai
           sample_crlf_chunks
           [DATA_PREFIX ++ delta_text "a"] [DATA_PREFIX ++ delta_text "b"]
           (DONE_LINE ++ [CR]) []).
  - reflexivity.
  - vm_compute. reflexivity.
  - intros H. vm_compute in H. destruct H as [E|[E|[]]]; discriminate.
  - repeat constructor; vm_compute; discriminate.
  - vm_compute. reflexivity.
Defined.

(** ** The calls of [autoTest] *)

Lemma calls_preamble (w : World) (args : IAutoTestArgs) :
  calls (preamble w args) = [ReadFileSync (inputFile args)].
Proof. unfold preamble. now destruct (fs_readFileSync w (inputFile args)). Qed.

Lemma writer_keeps_output_writes (w : World) (args : IAutoTestArgs)
      (start : list event) (token : jsval) :
  streamed args = true ->
  related (fun tr1 _ : list event =>
             exists writes,
               calls tr1 = start ++ writes /\ Forall (output_write args) writes)
          (writeToFile (outputFile args) token (Some true) w)
          (writeToFile (outputFile args) token (Some true) w).
Proof.
  intros Hs tr1 tr2 (writes & E & F). rewrite !writeToFile_run. cbn [fst snd].
  split; [reflexivity|].
  exists (writes ++ [WriteFileSync (outputFile args) token (lit "a")]). split.
  - rewrite calls_app, E, <- app_assoc. f_equal. f_equal.
    unfold calls. cbn [filter is_call].
    now destruct (fs_writeFileSync w tr1 (outputFile args) token (write_flag (Some true))).
  - apply Forall_app. split; [assumption|]. constructor; [|constructor].
    exists token. now rewrite Hs.
Qed.

(** X10.  The calls of a run of [autoTest], in any world: one read of
    the input file, then one chat-completion call with the request built
    from what was read, then writes of the output file only, all with
    the flag of the mode.  It reads or writes no other file and never
    calls the API twice. *)
Theorem autoTest_calls (w : World) (args : IAutoTestArgs) :
  exists writes,
    calls (snd (autoTest args w []))
    = ReadFileSync (inputFile args)
        :: CreateChatCompletion (arg_apiKey args)
             (completionRequest_of args (input_content w args)) (streamed args)
        :: writes
    /\ Forall (output_write args) writes.
Proof.
  rewrite autoTest_run. cbv zeta. cbn [app].
  set (req := completionRequest_of args (input_content w args)).
  assert (Hfresh : streamed args = false ->
            exists writes,
              calls (snd ((testContent <- getTestContent req (initOpenAI (arg_apiKey args)) ;;
                           writeToFile (outputFile args) testContent None)
                            w (preamble w args)))
              = ReadFileSync (inputFile args)
                  :: CreateChatCompletion (arg_apiKey args) req (streamed args) :: writes
              /\ Forall (output_write args) writes).
  { intros Hs. unfold bind. rewrite getTestContent_run, Hs. cbn [apiKey initOpenAI].
    destruct (openai_createChatCompletion w (arg_apiKey args) req false) as [response|err].
    - destruct (option_bind (message_content response) optional_replace) as [v|].
      + rewrite writeToFile_run. cbn [snd].
        exists [WriteFileSync (outputFile args) v (lit "w")]. split.
        * rewrite !calls_app, calls_preamble. unfold calls. cbn [filter is_call app].
          now destruct (fs_writeFileSync w _ (outputFile args) v (write_flag None)).
        * constructor; [|constructor]. exists v. now rewrite Hs.
      + exists []. split; [|constructor]. cbn [snd]. now rewrite calls_app, calls_preamble.
    - exists []. split; [|constructor]. cbn [snd]. now rewrite calls_app, calls_preamble. }
  destruct (stream args) as [[|]|] eqn:Hstream;
    [|apply Hfresh; unfold streamed; now rewrite Hstream ..].
  assert (Hs : streamed args = true) by (unfold streamed; now rewrite Hstream).
  rewrite Hs. unfold streamTestContent, bind, createChatCompletion.
  cbn [apiKey initOpenAI].
  destruct (openai_createChatCompletion w (arg_apiKey args) req true) as [[data|chunks]|err].
  - exists []. split; [|constructor]. unfold throw. cbn [snd].
    now rewrite calls_app, calls_preamble.
  - set (tr' := preamble w args ++ [CreateChatCompletion (arg_apiKey args) req true]).
    apply (@related_for_chunks
             (fun tr1 _ : list event =>
                exists writes,
                  calls tr1
                  = [ReadFileSync (inputFile args);
                     CreateChatCompletion (arg_apiKey args) req true] ++ writes
                  /\ Forall (output_write args) writes)
             w w (fun _ => eq_refl)
             (fun token => writeToFile (outputFile args) token (Some true))
             (fun token => writeToFile (outputFile args) token (Some true))
             (fun token => @writer_keeps_output_writes w args _ token Hs)
             chunks tr' tr').
    exists []. split; [|constructor]. unfold tr'.
    now rewrite calls_app, calls_preamble.
  - exists []. split; [|constructor]. cbn [snd]. now rewrite calls_app, calls_preamble.
Qed.

(** X11.  When the chat-completion call fails, [autoTest] throws the
    error of the call right after it and has written nothing, in either
    mode. *)
Theorem autoTest_api_failure (w : World) (args : IAutoTestArgs) (err : jsstring) :
  openai_createChatCompletion w (arg_apiKey args)
    (completionRequest_of args (input_content w args)) (streamed args) = inr err ->
  autoTest args w []
  = (Throw err,
     preamble w args
       ++ [CreateChatCompletion (arg_apiKey args)
             (completionRequest_of args (input_content w args)) (streamed args)])
  /\ write_calls (snd (autoTest args w [])) = [].
Proof.
  intros Hapi.
  assert (E : autoTest args w []
              = (Throw err,
                 preamble w args
                   ++ [CreateChatCompletion (arg_apiKey args)
                         (completionRequest_of args (input_content w args))
                         (streamed args)])).
  { rewrite autoTest_run. cbv zeta. cbn [app]. unfold streamed in *.
    destruct (stream args) as [[|]|];
      unfold streamTestContent, getTestContent, bind, createChatCompletion;
      cbn [apiKey initOpenAI]; now rewrite Hapi. }
  split; [exact E|]. rewrite E. cbn [snd].
  now rewrite write_calls_app, write_calls_preamble.
Qed.

Lemma autoTest_api_failure_witness :
  let w := sample_world (inl (lit "x")) false (fun _ => inr (lit "401")) in
  let args := sample_args (Some true) in
  autoTest args w []
  = (Throw (lit "401"),
     preamble w args
       ++ [CreateChatCompletion (arg_apiKey args)
             (completionRequest_of args (input_content w args)) (streamed args)])
  /\ write_calls (snd (autoTest args w [])) = [].
Proof.
  apply (@autoTest_api_failure
           (sample_world (inl (lit "x")) false (fun _ => inr (lit "401")))
           (sample_args (Some true)) (lit "401")).
  reflexivity.
Defined.

(** X12.  Without streaming, what [autoTest] does with the response
    depends on the message content alone.  A string is stripped and
    written; a content that is absent ([undefined] or [null]) is not an
    error: [undefined] is handed to the write; any other value, and a
    response without [choices[0].message], is a TypeError before any
    write. *)
Theorem autoTest_by_message_content (w : World) (args : IAutoTestArgs)
        (response : response_data) :
  streamed args = false ->
  openai_createChatCompletion w (arg_apiKey args)
    (completionRequest_of args (input_content w args)) false = inl response ->
  let outcome := fst (autoTest args w []) in
  let writes := write_calls (snd (autoTest args w [])) in
  match message_content response with
  | Some (JStr s) =>
      outcome = Ok tt
      /\ writes = [(outputFile args, JStr (replace_fence_lines AtLineStart s), lit "w")]
  | Some JUndefined | Some JNull =>
      outcome = Ok tt /\ writes = [(outputFile args, JUndefined, lit "w")]
  | _ => outcome = Throw TypeError /\ writes = []
  end.
Proof.
  intros Hs Hapi outcome writes. subst outcome writes.
  assert (E : autoTest args w []
              = (testContent <-
                   getTestContent (completionRequest_of args (input_content w args))
                     (initOpenAI (arg_apiKey args)) ;;
                 writeToFile (outputFile args) testContent None) w (preamble w args)).
  { rewrite autoTest_run. cbv zeta. cbn [app]. unfold streamed in Hs.
    destruct (stream args) as [[|]|]; [discriminate|reflexivity|reflexivity]. }
  rewrite E. unfold bind. rewrite getTestContent_run. cbn [apiKey initOpenAI].
  rewrite Hapi.
  destruct (message_content response) as [[| |b|q|s|items|props]|];
    cbn [option_bind optional_replace];
    rewrite ?writeToFile_run; cbn [fst snd];
    rewrite ?write_calls_app, ?write_calls_preamble;
    unfold write_calls; cbn [flat_map app]; split; try reflexivity;
    match goal with
    | |- context [fs_writeFileSync ?a ?b ?c ?d ?e] =>
        destruct (fs_writeFileSync a b c d e); reflexivity
    end.
Qed.

Lemma autoTest_by_message_content_witness :
  let w := sample_world (inl (lit "x")) false
             (fun _ => inl (message_response JNull)) in
  let args := sample_args None in
  let outcome := fst (autoTest args w []) in
  let writes := write_calls (snd (autoTest args w [])) in
  match message_content (message_response JNull) with
  | Some (JStr s) =>
      outcome = Ok tt
      /\ writes = [(outputFile args, JStr (replace_fence_lines AtLineStart s), lit "w")]
  | Some JUndefined | Some JNull =>
      outcome = Ok tt /\ writes = [(outputFile args, JUndefined, lit "w")]
  | _ => outcome = Throw TypeError /\ writes = []
  end.
Proof.
  apply (@autoTest_by_message_content
           (sample_world (inl (lit "x")) false (fun _ => inl (message_response JNull)))
           (sample_args None) (message_response JNull));
    reflexivity.
Defined.

(** ** The request as a whole *)

Lemma getExampleMessages_roles (promptArgs : iGetPromptArgs) (exs : list IExample) :
  map role (getExampleMessages promptArgs (Some exs))
  = List.concat (repeat [User; Assistant] (List.length exs)).
Proof.
  unfold getExampleMessages. induction exs as [|g exs IH]; [reflexivity|].
  cbn [flat_map List.length repeat List.concat map app role]. now rewrite IH.
Qed.

Lemma getExampleMessages_count (promptArgs : iGetPromptArgs) (args : IAutoTestArgs) :
  List.length (getExampleMessages promptArgs (examples args)) = 2 * example_count args.
Proof.
  unfold example_count, getExampleMessages.
  destruct (examples args) as [exs|]; [|reflexivity].
  induction exs as [|g exs IH]; [reflexivity|].
  cbn [flat_map app List.length]. rewrite IH. lia.
Qed.

(** X13.  The request [autoTest] sends, for [n] examples, has [2n + 2]
    messages whose roles are System, then User and Assistant in turn for
    the examples, then User: the last message is the prompt for the
    input file, and every assistant message is answered to a user
    message. *)
Theorem completionRequest_roles (args : IAutoTestArgs) (content : jsstring) :
  let msgs := messages (completionRequest_of args content) in
  List.length msgs = 2 * example_count args + 2
  /\ map role msgs
     = System :: List.concat (repeat [User; Assistant] (example_count args)) ++ [User]
  /\ nth_error msgs (2 * example_count args + 1)
     = Some {| role := User;
               msg_content := getPrompt (promptArgs_of args content) |}.
Proof.
  intros msgs. subst msgs. unfold completionRequest_of, getCompletionRequest.
  cbn [messages]. split; [|split].
  - rewrite !length_app, getExampleMessages_count. cbn [List.length]. lia.
  - rewrite !map_app. cbn [map role SYSTEM_MESSAGE app]. f_equal. f_equal.
    unfold example_count. destruct (examples args) as [exs|]; [|reflexivity].
    apply getExampleMessages_roles.
  - cbn [app]. replace (2 * example_count args + 1) with (S (2 * example_count args)) by lia.
    cbn [nth_error]. rewrite nth_error_app2; rewrite getExampleMessages_count; [|lia].
    now rewrite Nat.sub_diag.
Qed.

(** ** The numbered list, line by line *)

Lemma digits_have_no_LF (d : Decimal.uint) : ~ In LF (lit (NilEmpty.string_of_uint d)).
Proof.
  induction d; cbn; intros H; try contradiction;
    destruct H as [H|H]; try discriminate; auto.
Qed.

Lemma number_toString_has_no_LF (n : nat) : ~ In LF (number_toString n).
Proof.
  unfold number_toString, NilZero.string_of_uint.
  destruct (Nat.to_uint n) eqn:E; try (rewrite <- E; apply digits_have_no_LF).
  cbn. intros [H|[]]. discriminate.
Qed.

Lemma split_without_separator (sep : N) (x : jsstring) :
  ~ In sep x -> split sep x = [x].
Proof.
  unfold split. induction x as [|c x IH]; [reflexivity|].
  intros H. cbn [split_at].
  destruct (N.eqb_spec c sep) as [->|Hc]; [elim H; now left|].
  rewrite IH; [reflexivity|]. intros Hin. apply H. now right.
Qed.

Lemma split_join_crlf (items : list jsstring) :
  Forall (fun x => ~ In LF x) items ->
  split LF (join [CR; LF] items) = lines_of_joined items.
Proof.
  induction 1 as [|x items Hx _ IH]; [reflexivity|].
  destruct items as [|y items].
  - cbn [join lines_of_joined]. now apply split_without_separator.
  - change (join [CR; LF] (x :: y :: items))
      with (x ++ [CR; LF] ++ join [CR; LF] (y :: items)).
    change (x ++ [CR; LF] ++ join [CR; LF] (y :: items))
      with (x ++ [CR] ++ LF :: join [CR; LF] (y :: items)).
    rewrite app_assoc, split_at_separator, IH.
    rewrite split_without_separator; [reflexivity|].
    intros Hin. apply in_app_or in Hin as [Hin|[Hin|[]]]; [now apply Hx|discriminate].
Qed.

Lemma lines_of_joined_nth (items : list jsstring) (i : nat) :
  i < List.length items ->
  nth_error (lines_of_joined items) i
  = Some (nth i items [] ++ if S i <? List.length items then [CR] else []).
Proof.
  revert i; induction items as [|x items IH]; intros i Hi; [cbn in Hi; lia|].
  destruct items as [|y items].
  - assert (i = 0) by (cbn in Hi; lia). subst i. cbn. now rewrite app_nil_r.
  - destruct i as [|i]; [reflexivity|].
    change (lines_of_joined (x :: y :: items))
      with ((x ++ [CR]) :: lines_of_joined (y :: items)).
    cbn [nth_error nth]. rewrite IH by (cbn in *; lia).
    change (List.length (x :: y :: items)) with (S (List.length (y :: items))).
    reflexivity.
Qed.

Lemma lines_of_joined_length (items : list jsstring) :
  items <> [] -> List.length (lines_of_joined items) = List.length items.
Proof.
  induction items as [|x items IH]; [congruence|]. intros _.
  destruct items as [|y items]; [reflexivity|].
  change (lines_of_joined (x :: y :: items))
    with ((x ++ [CR]) :: lines_of_joined (y :: items)).
  cbn [List.length]. f_equal. now apply IH.
Qed.

Lemma map_index_Forall {A B} (P : B -> Prop) (f : A -> nat -> B) (arr : list A) :
  (forall x i, In x arr -> P (f x i)) ->
  forall from, Forall P (map_index f from arr).
Proof.
  induction arr as [|x arr IH]; intros H from; [constructor|].
  cbn [map_index]. constructor; [apply H; now left|].
  apply IH. intros y i Hy. apply H. now right.
Qed.

(** X14.  When no element holds a newline, the text of [toList] has
    exactly one line per element: cut at LF, its [i]-th line (from 1) is
    the number [i], a dot, a space and the [i]-th element, followed by
    the CR of the separator on every line but the last. *)
Theorem toList_one_line_per_element (arr : list jsstring) :
  arr <> [] ->
  Forall (fun x => ~ In LF x) arr ->
  List.length (split LF (toList arr)) = List.length arr
  /\ forall i, 1 <= i <= List.length arr ->
       nth_error (split LF (toList arr)) (i - 1)
       = Some (number_toString i ++ lit ". " ++ nth (i - 1) arr []
                 ++ if i <? List.length arr then [CR] else []).
Proof.
  intros Hne Hlf. unfold toList.
  set (f := fun (tip : jsstring) (index : nat) =>
              number_toString (index + 1) ++ lit ". " ++ tip).
  assert (Hitems : Forall (fun x => ~ In LF x) (map_index f 0 arr)).
  { apply map_index_Forall. intros x i Hx Hin. unfold f in Hin.
    apply in_app_or in Hin as [Hin|Hin]; [now apply number_toString_has_no_LF in Hin|].
    apply in_app_or in Hin as [Hin|Hin].
    - cbn in Hin. destruct Hin as [E|[E|[]]]; discriminate.
    - revert Hin. now apply (proj1 (Forall_forall _ _) Hlf). }
  rewrite split_join_crlf by assumption. split.
  - rewrite lines_of_joined_length, map_index_length; [reflexivity|].
    destruct arr; [congruence|discriminate].
  - intros i Hi.
    rewrite lines_of_joined_nth by (rewrite map_index_length; unfold jsstring in *; lia).
    rewrite map_index_length, map_index_nth with (d := [])
      by (unfold jsstring in *; lia).
    unfold f. cbn [Nat.add]. replace (i - 1 + 1) with i by lia.
    replace (S (i - 1)) with i by lia.
    now rewrite <- !app_assoc.
Qed.

Lemma toList_one_line_per_element_witness :
  List.length (split LF (toList [lit "jest"; lit "react"])) = 2
  /\ forall i, 1 <= i <= 2 ->
       nth_error (split LF (toList [lit "jest"; lit "react"])) (i - 1)
       = Some (number_toString i ++ lit ". " ++ nth (i - 1) [lit "jest"; lit "react"] []
                 ++ if i <? 2 then [CR] else []).
Proof.
  apply (@toList_one_line_per_element [lit "jest"; lit "react"]).
  - discriminate.
  - repeat constructor; intros H; vm_compute in H;
      repeat (destruct H as [H|H]; [discriminate|]); exact H.
Defined.

(** ** What a broken stream leaves in the output file *)

Lemma tokens_of_map_Token (tokens : list jsval) : tokens_of (map Token tokens) = tokens.
Proof. induction tokens as [|t ts IH]; [reflexivity|]. cbn. now f_equal. Qed.

(** X15.  With streaming, a stream that breaks at a bad data line makes
    [autoTest] throw, and the output file keeps what was appended before:
    one write with flag [a] for each non-empty delta token of the lines
    before the bad one, in order, and none for what follows. *)
Theorem autoTest_keeps_partial_output (w : World) (args : IAutoTestArgs)
        (chunks before after : list jsstring) (bad : jsstring) :
  streamed args = true ->
  openai_createChatCompletion w (arg_apiKey args)
    (completionRequest_of args (input_content w args)) true = inl (DataStream chunks) ->
  flat_map data_lines chunks = before ++ bad :: after ->
  ~ In DONE_LINE (before ++ [bad]) ->
  Forall (fun line => line_token w line <> None) before ->
  line_token w bad = None ->
  fst (autoTest args w [])
  = Throw (match JSON_parse w (replace_data_prefix bad) with
           | None => SyntaxError
           | Some _ => TypeError
           end)
  /\ write_calls (snd (autoTest args w []))
     = map (fun token => (outputFile args, token, lit "a")) (delta_tokens w before).
Proof.
  intros Hs Hapi Hlines Hdone Hjson Hbad.
  assert (Hstream : stream args = Some true).
  { unfold streamed in Hs. destruct (stream args) as [[|]|]; congruence. }
  rewrite autoTest_run, Hstream. cbv zeta. cbn [app].
  set (req := completionRequest_of args (input_content w args)) in *.
  pose proof (@stream_run_to_bad_line w req (initOpenAI (arg_apiKey args))
                chunks before after bad [] Hapi Hlines Hdone Hjson Hbad) as Hrun.
  set (R := fun tr1 tr2 : list event =>
              write_calls tr1
              = map (fun t => (outputFile args, t, lit "a")) (tokens_of tr2)).
  assert (HR : forall tr1 tr2 key r s,
             R tr1 tr2 ->
             R (tr1 ++ [CreateChatCompletion key r s])
               (tr2 ++ [CreateChatCompletion key r s])).
  { intros tr1 tr2 key r s H. unfold R in *.
    now rewrite write_calls_app, tokens_of_app, map_app, H. }
  destruct (@related_streamTestContent R
              w w (fun _ => eq_refl) (fun _ _ _ => eq_refl) HR
              (fun token => writeToFile (outputFile args) token (Some true))
              record_token
              (fun token => related_writer_recorder w (outputFile args) token)
              req (initOpenAI (arg_apiKey args))
              (preamble w args) [] (write_calls_preamble w args)) as [Hfst Hsnd].
  unfold R in Hsnd.
  rewrite Hrun in Hfst, Hsnd. cbn [fst snd app] in Hfst, Hsnd.
  split; [exact Hfst|]. rewrite Hsnd.
  change (CreateChatCompletion (apiKey (initOpenAI (arg_apiKey args))) req true
            :: map Token (delta_tokens w before))
    with ([CreateChatCompletion (apiKey (initOpenAI (arg_apiKey args))) req true]
            ++ map Token (delta_tokens w before)).
  now rewrite tokens_of_app, tokens_of_map_Token.
Qed.

Lemma autoTest_keeps_partial_output_witness :
  let w := sample_world (inl (lit "x")) false sample_crlf_api in
  let args := sample_args (Some true) in
  fst (autoTest args w [])
  = Throw (match JSON_parse w (replace_data_prefix (DONE_LINE ++ [CR])) with
           | None => SyntaxError
           | Some _ => TypeError
           end)
  /\ write_calls (snd (autoTest args w []))
     = map (fun token => (outputFile args, token, lit "a"))
           (delta_tokens w [DATA_PREFIX ++ delta_text "a"]).
Proof.
  apply (@autoTest_keeps_partial_output
           (sample_world (inl (lit "x")) false sample_crlf_api)
           (sample_args (Some true)) sample_crlf_chunks
           [DATA_PREFIX ++ delta_text "a"] [DATA_PREFIX ++ delta_text "b"]
           (DONE_LINE ++ [CR])).
  - reflexivity.
  - reflexivity.
  - vm_compute. reflexivity.
  - intros H. vm_compute in H. destruct H as [E|[E|[]]]; discriminate.
  - repeat constructor; vm_compute; discriminate.
  - vm_compute. reflexivity.
Defined.
